(** * The evaluator core of the PHP interpreter: a shallow embedding

    Sources embedded here:
    - [src/interpreter/evaluator/evaluator.ts]   ([run], [evaluate], [IStkNode])
    - [src/interpreter/evaluator/evaluation/offset.ts]   ([evaluateOffset])
    - [src/interpreter/evaluator/environment.ts]   ([IEnv], [Env])

    The program is TypeScript running on a JavaScript host, so the first part
    of the file fixes the fragment of the host semantics the three files rely
    on: the value universe, [typeof], [Number(...)], [Boolean(...)],
    [String(...)], [Math.trunc], comparison with zero, string indexing and
    the regular expression used by the offset normaliser.  The evaluator is
    then written in a small state-and-exception monad that threads the
    execution stack, the environment table and the console. *)

From Stdlib Require Import String Ascii List Bool ZArith QArith Lia.
From Stdlib Require Import Qreduction.
Import ListNotations.

Open Scope string_scope.
Open Scope Z_scope.

(* ===================================================================== *)
(** ** Host numbers *)
(* ===================================================================== *)

(** A JavaScript number is NaN, an infinity, the negative zero, or a finite
    value.  Finite values are kept as the rational they denote ([Fin 0] is
    the positive zero).  The arithmetic the
    evaluator performs on numbers ([Math.trunc], [< 0], adding a string
    length to a negative key, reading a literal) is carried out exactly on
    that rational; binary64 rounding of results that are not representable
    is not modelled, which leaves every integer of magnitude up to 2^53
    untouched.  A number built here is in lowest terms. *)
Inductive number : Type :=
| NaN
| PInf
| NInf
| NZero
| Fin (q : Q).

Definition numZ (z : Z) : number := Fin (inject_Z z).

(** [Math.trunc(x)]: the integral part, the sign of a vanishing result
    follows the argument. *)
Definition Qtrunc (q : Q) : Z := Z.quot (Qnum q) (Zpos (Qden q)).

Definition Math_trunc (x : number) : number :=
  match x with
  | Fin q =>
      let z := Qtrunc q in
      if z =? 0 then (if Qnum q <? 0 then NZero else numZ 0) else numZ z
  | other => other
  end.

(** [x < 0] on numbers. *)
Definition num_ltz (x : number) : bool :=
  match x with
  | NInf => true
  | Fin q => Qnum q <? 0
  | _ => false
  end.

(** [x + n] for a string length [n]. *)
Definition num_add_len (x : number) (n : nat) : number :=
  match x with
  | Fin q => Fin (Qred (q + inject_Z (Z.of_nat n)))
  | NZero => numZ (Z.of_nat n)
  | other => other
  end.

(** [x === y] on numbers: NaN differs from everything, both zeros agree. *)
Definition num_strict_eq (x y : number) : bool :=
  match x, y with
  | NaN, _ | _, NaN => false
  | PInf, PInf | NInf, NInf | NZero, NZero => true
  | NZero, Fin q | Fin q, NZero => Qeq_bool q 0
  | Fin p, Fin q => Qeq_bool p q
  | _, _ => false
  end.

(** SameValueZero, the key equality of a host [Map]: like [===] but NaN is
    equal to itself. *)
Definition num_same_zero (x y : number) : bool :=
  match x, y with
  | NaN, NaN => true
  | _, _ => num_strict_eq x y
  end.

(** The array index a number designates when used as a property key of a
    string: a non-negative integer (the negative zero prints as "0"). *)
Definition num_index (x : number) : option nat :=
  match x with
  | NZero => Some O
  | Fin q =>
      let r := Qred q in
      if (Zpos (Qden r) =? 1) && (0 <=? Qnum r) then Some (Z.to_nat (Qnum r))
      else None
  | _ => None
  end.

(* ===================================================================== *)
(** ** [Number(string)]: the StringToNumber grammar *)
(* ===================================================================== *)

(** A host string is kept as a [string]: a sequence of characters with
    their codes.  The grammar below is the one [Number] applies to a
    string (StringNumericLiteral): optional white space around an optional
    literal, which is a signed decimal literal ([Infinity] included) or an
    unsigned binary, octal or hexadecimal integer.  White space is the
    ASCII part of StrWhiteSpace: tab, line feed, vertical tab, form feed,
    carriage return and space. *)
Definition code (c : ascii) : Z := Z.of_N (N_of_ascii c).

Definition is_ws (c : ascii) : bool :=
  let n := code c in
  ((9 <=? n) && (n <=? 13)) || (n =? 32).

Definition is_digit (c : ascii) : bool :=
  let n := code c in (48 <=? n) && (n <=? 57).

Definition is_1_9 (c : ascii) : bool :=
  let n := code c in (49 <=? n) && (n <=? 57).

Fixpoint drop_ws (l : list ascii) : list ascii :=
  match l with
  | c :: t => if is_ws c then drop_ws t else l
  | [] => []
  end.

Definition trim (l : list ascii) : list ascii :=
  rev (drop_ws (rev (drop_ws l))).

(** The value of one digit in a base up to sixteen. *)
Definition digit_of (base : Z) (c : ascii) : option Z :=
  let n := code c in
  let d :=
    if (48 <=? n) && (n <=? 57) then Some (n - 48)
    else if (97 <=? n) && (n <=? 102) then Some (n - 87)
    else if (65 <=? n) && (n <=? 70) then Some (n - 55)
    else None in
  match d with
  | Some v => if v <? base then Some v else None
  | None => None
  end.

Fixpoint digits (base : Z) (l : list ascii) (acc : Z) : option Z :=
  match l with
  | [] => Some acc
  | c :: t =>
      match digit_of base c with
      | Some d => digits base t (acc * base + d)
      | None => None
      end
  end.

(** One or more digits. *)
Definition digits1 (base : Z) (l : list ascii) : option Z :=
  match l with
  | [] => None
  | _ => digits base l 0
  end.

(** The longest prefix of decimal digits, and what follows it. *)
Fixpoint span_digits (l : list ascii) : list ascii * list ascii :=
  match l with
  | c :: t =>
      if is_digit c then let (d, r) := span_digits t in (c :: d, r)
      else ([], l)
  | [] => ([], [])
  end.

(** ExponentPart_opt followed by the end of the input. *)
Definition exponent (l : list ascii) : option Z :=
  match l with
  | [] => Some 0
  | c :: t =>
      if (code c =? 101) || (code c =? 69) then
        match t with
        | s :: u =>
            if code s =? 45 then option_map Z.opp (digits1 10 u)
            else if code s =? 43 then digits1 10 u
            else digits1 10 t
        | [] => None
        end
      else None
  end.

(** StrUnsignedDecimalLiteral other than [Infinity]: mantissa digits, an
    optional fraction, an optional exponent. *)
Definition unsigned_decimal (l : list ascii) : option Q :=
  let (ip, r1) := span_digits l in
  let '(fp, dot, r2) :=
    match r1 with
    | c :: t => if code c =? 46 then let (f, r) := span_digits t in (f, true, r)
                else ([], false, r1)
    | [] => ([], false, [])
    end in
  match (ip ++ fp)%list with
  | [] => None
  | ds =>
      match digits 10 ds 0, exponent r2 with
      | Some m, Some e =>
          Some (Qred (inject_Z m * Qpower 10 (e - Z.of_nat (length fp))))
      | _, _ => None
      end
  end.

Definition signed (neg : bool) (q : Q) : number :=
  if neg then (if Qeq_bool q 0 then NZero else Fin (Qred (- q))) else Fin q.

Definition str_decimal (neg : bool) (l : list ascii) : number :=
  if list_eq_dec ascii_dec l (list_ascii_of_string "Infinity")
  then (if neg then NInf else PInf)
  else match unsigned_decimal l with
       | Some q => signed neg q
       | None => NaN
       end.

(** NonDecimalIntegerLiteral: [0b], [0o], [0x] in either case, unsigned. *)
Definition non_decimal (l : list ascii) : option number :=
  match l with
  | z :: p :: ds =>
      if code z =? 48 then
        let base :=
          if (code p =? 120) || (code p =? 88) then Some 16
          else if (code p =? 111) || (code p =? 79) then Some 8
          else if (code p =? 98) || (code p =? 66) then Some 2
          else None in
        match base with
        | Some b => Some match digits1 b ds with
                         | Some v => numZ v
                         | None => NaN
                         end
        | None => None
        end
      else None
  | _ => None
  end.

Definition StringToNumber (s : string) : number :=
  match trim (list_ascii_of_string s) with
  | [] => numZ 0
  | (c :: t) as l =>
      match non_decimal l with
      | Some n => n
      | None =>
          if code c =? 45 then str_decimal true t
          else if code c =? 43 then str_decimal false t
          else str_decimal false l
      end
  end.

(* ===================================================================== *)
(** ** Host values *)
(* ===================================================================== *)

(** The values that travel through the evaluator.  [VIArray elt] is an
    object whose [type] field is ["IArray"] and whose [elt] field is a host
    [Map] (kept in insertion order); [VIObject] is an object whose [type]
    field is ["IObject"]; [VOther] stands for every other host value (plain
    objects, functions, symbols), which the evaluator treats alike. *)
#[warnings="-register-all"]
Inductive jsval : Type :=
| VUndefined
| VNull
| VBool (b : bool)
| VNum (n : number)
| VStr (s : string)
| VIArray (elt : list (jsval * jsval))
| VIObject
| VOther.

Definition typeof (v : jsval) : string :=
  match v with
  | VUndefined => "undefined"
  | VBool _ => "boolean"
  | VNum _ => "number"
  | VStr _ => "string"
  | VNull | VIArray _ | VIObject | VOther => "object"
  end.

(** [v === w] for the comparisons the evaluator makes (against [undefined],
    [null] and string constants); two objects are never found equal, object
    identity is not part of the model. *)
Definition strict_eq (v w : jsval) : bool :=
  match v, w with
  | VUndefined, VUndefined | VNull, VNull => true
  | VBool a, VBool b => Bool.eqb a b
  | VNum a, VNum b => num_strict_eq a b
  | VStr a, VStr b => String.eqb a b
  | _, _ => false
  end.

(** SameValueZero on primitive values. *)
Definition same_value_zero (v w : jsval) : bool :=
  match v, w with
  | VNum a, VNum b => num_same_zero a b
  | _, _ => strict_eq v w
  end.

(** [Number(b)] for a boolean. *)
Definition Number_of_bool (b : bool) : number := if b then numZ 1 else numZ 0.

(** [str[i]] for a number [i]: the one-character string at that index, or
    [undefined]. *)
Definition char_at (str : string) (i : number) : jsval :=
  match num_index i with
  | Some n =>
      match String.get n str with
      | Some c => VStr (String c EmptyString)
      | None => VUndefined
      end
  | None => VUndefined
  end.

(** [map.size] and [map.get(k)] of a host [Map] looked up by a primitive
    key. *)
Definition Map_size (elt : list (jsval * jsval)) : nat := length elt.

Fixpoint Map_get (elt : list (jsval * jsval)) (k : jsval) : jsval :=
  match elt with
  | [] => VUndefined
  | (k', v) :: rest => if same_value_zero k k' then v else Map_get rest k
  end.

(** The regular expression [validDecInt] of the offset normaliser, as a
    matcher.  Anchored at both ends, it has three alternatives: the empty
    string; an optional minus sign followed by the single digit 0; a minus
    sign, a digit from 1 to 9, and any number of digits. *)
Definition validDecInt (s : string) : bool :=
  match list_ascii_of_string s with
  | [] => true
  | [z] => code z =? 48
  | m :: d :: t =>
      if code m =? 45 then
        match t with
        | [] => (code d =? 48) || is_1_9 d
        | _ => is_1_9 d && forallb is_digit t
        end
      else false
  end.

(** An offset name once the normaliser has run: still [undefined], a number,
    or a string. *)
Inductive key : Type :=
| KUndefined
| KNum (n : number)
| KStr (s : string).

Definition val_of_key (k : key) : jsval :=
  match k with
  | KUndefined => VUndefined
  | KNum n => VNum n
  | KStr s => VStr s
  end.

(** [k < 0]; [undefined < 0] is false.  A string key never reaches a
    comparison: both string branches replace it by [0] first. *)
Definition key_ltz (k : key) : bool :=
  match k with
  | KNum n => num_ltz n
  | _ => false
  end.

Definition key_add_len (k : key) (n : nat) : key :=
  match k with
  | KNum x => KNum (num_add_len x n)
  | other => other
  end.

(** [str[k]] for a key that is a number or [undefined]; [str[undefined]]
    is the property ["undefined"], which a string does not have. *)
Definition str_at (str : string) (k : key) : jsval :=
  match k with
  | KNum n => char_at str n
  | _ => VUndefined
  end.

(* ===================================================================== *)
(** ** The syntax tree *)
(* ===================================================================== *)

(** Modelled from the spec: the [value] field of an AST node, whose type
    belongs to the parser and is not among the sources.  It holds what the
    parser stores for a literal: a host boolean for a [boolean] node, the
    source text for [number] and [string] nodes, and nothing
    ([undefined]) for the other kinds. *)
Inductive lit : Type :=
| LUndefined
| LBool (b : bool)
| LStr (s : string).

(** Modelled from the spec: the AST node type belongs to the parser, which
    is not among the sources.  A node is "tagged by kind, carrying
    kind-specific fields (expression, what, offset, value, byref, name,
    children)"; a field that is absent or falsy reads as [None] or
    [false]. *)
#[warnings="-register-all"]
Inductive Node : Type := mkNode {
  kind : string;
  expression : option Node;
  what : option Node;
  offset : option Node;
  value : lit;
  byref : bool;
  name : option string
}.

(** Modelled from the spec: the root of the tree, which "has a children
    sequence of top-level statement nodes". *)
Record AST : Type := mkAST { children : list Node }.

(** [Boolean(v)], [Number(v)] and [String(v)] on a literal's [value]. *)
Definition Boolean (v : lit) : bool :=
  match v with
  | LUndefined => false
  | LBool b => b
  | LStr s => negb (String.eqb s EmptyString)
  end.

Definition Number (v : lit) : number :=
  match v with
  | LUndefined => NaN
  | LBool b => Number_of_bool b
  | LStr s => StringToNumber s
  end.

Definition String_ (v : lit) : string :=
  match v with
  | LUndefined => "undefined"
  | LBool true => "true"
  | LBool false => "false"
  | LStr s => s
  end.

(** A [name] or [inst] spliced into a message: [undefined] prints as
    such. *)
Definition show (o : option string) : string :=
  match o with
  | Some s => s
  | None => "undefined"
  end.

(* ===================================================================== *)
(** ** Locations, stack items, environment *)
(* ===================================================================== *)

Module Location.

(** Modelled from the spec: [ILocation] is declared in [variable.ts], which
    is not among the sources.  A location is "environment index + storage
    slot + optional sub-offset"; [evaluateOffset] also reads a [type] field,
    to which it applies both [typeof] and comparisons with string tags, so
    it is kept as a host value. *)
Record ILocation : Type := mk {
  type : jsval;
  idx : Z;
  vstoreId : Z;
  offset : key
}.

Definition set_offset (l : ILocation) (k : key) : ILocation :=
  mk (type l) (idx l) (vstoreId l) k.

End Location.

(** [IStkNode] of [evaluator.ts]; an absent field reads as [undefined]. *)
Record IStkNode : Type := mkStk {
  val : jsval;
  loc : option Location.ILocation;
  inst : option string;
  node : option Node
}.

Definition stk_empty : IStkNode := mkStk VUndefined None None None.
Definition stk_val (v : jsval) : IStkNode := mkStk v None None None.
Definition stk_loc (l : option Location.ILocation) : IStkNode :=
  mkStk VUndefined l None None.
Definition stk_node (n : option Node) (i : option string) : IStkNode :=
  mkStk VUndefined None i n.

Module Environment.

(** Modelled from the spec: [IMap] ([utils/map.ts]) is not among the
    sources.  It is an object used as a map, here an association list on
    the property name. *)
Definition IMap (T : Type) : Type := list (string * T).

(** Modelled from the spec: [IBindings] ([variable.ts]) is not among the
    sources.  The bindings are "a name->slot-id symbol table (vslot) and a
    slot-id->value store (vstore), plus a heap-object store (hstore)". *)
Record IBindings : Type := mkBindings {
  hstore : IMap jsval;
  vslot : IMap Z;
  vstore : IMap jsval
}.

Record Encls : Type := mkEncls {
  _class : list Z;
  _closure : list Z;
  _function : list Z;
  _namespace : list Z
}.

Record Stati : Type := mkStati {
  _property : IBindings;
  _method : jsval
}.

(** [IEnv] of [environment.ts]; a field holding [null] is [None]. *)
Record IEnv : Type := mkIEnv {
  bind : IBindings;
  encls : Encls;
  init : option jsval;
  meta : option jsval;
  name : string;
  outer : option Z;
  stati : option Stati;
  type : string
}.

(** The class [Env]. *)
Record Env : Type := mkEnv {
  env : IMap IEnv;
  idx : Z
}.

(** [new Env()]: the table holds the global environment at index 0. *)
Definition new : Env :=
  mkEnv
    [("0", mkIEnv (mkBindings [] [] []) (mkEncls [] [] [] []) None None
                  "global" None None "global")]
    0.

End Environment.

(* ===================================================================== *)
(** ** The evaluator state and its monad *)
(* ===================================================================== *)

(** One [console.error] call: a fixed text, possibly followed by a value
    spliced in by [+]. *)
Inductive diag : Type :=
| Say (text : string)
| SayVal (text : string) (v : jsval).

(** What a [throw] carries: an [Error] with its message, or the host's
    [TypeError] for a property read on [undefined] or [null]. *)
Inductive error : Type :=
| Error (msg : string)
| TypeError.

(** Modelled from the spec: the class [Stack] ([utils/stack.ts]) is not
    among the sources; it is "an explicit mutable stack of pending work
    items", here a list with the top first.  Reading [top.value] of an empty
    stack is a [TypeError]. *)
Record State : Type := mkState {
  stk : list IStkNode;
  env : Environment.Env;
  console : list diag
}.

Definition set_stk (s : State) (l : list IStkNode) : State :=
  mkState l (env s) (console s).

Inductive outcome (A : Type) : Type :=
| Ok (a : A) (s : State)
| Throw (e : error) (s : State).

Arguments Ok {A} a s.
Arguments Throw {A} e s.

Definition M (A : Type) : Type := State -> outcome A.

Definition ret {A} (a : A) : M A := fun s => Ok a s.

Definition bind {A B} (m : M A) (f : A -> M B) : M B :=
  fun s => match m s with
           | Ok a s' => f a s'
           | Throw e s' => Throw e s'
           end.

Definition throw {A} (e : error) : M A := fun s => Throw e s.

Declare Scope eval_scope.
Delimit Scope eval_scope with eval.
Notation "x <- m ;; k" := (bind m (fun x => k))
  (at level 61, m at next level, right associativity) : eval_scope.
Notation "m ;; k" := (bind m (fun _ => k))
  (at level 61, right associativity) : eval_scope.
Open Scope eval_scope.

(** [this.stk.push(item)]. *)
Definition push (item : IStkNode) : M unit :=
  fun s => Ok tt (set_stk s (item :: stk s)).

(** [const x = this.stk.top.value; this.stk.pop();]. *)
Definition pop : M IStkNode :=
  fun s => match stk s with
           | top :: rest => Ok top (set_stk s rest)
           | [] => Throw TypeError s
           end.

(** [console.error(...)]. *)
Definition console_error (d : diag) : M unit :=
  fun s => Ok tt (mkState (stk s) (env s) (console s ++ [d])).

(** Reading a property of [o] when [o] may be [undefined]. *)
Definition deref {A} (o : option A) : M A :=
  match o with
  | Some a => ret a
  | None => throw TypeError
  end.

Definition when (b : bool) (m : M unit) : M unit := if b then m else ret tt.

Fixpoint emit (ds : list diag) : M unit :=
  match ds with
  | [] => ret tt
  | d :: rest => console_error d ;; emit rest
  end.

(** [xs.forEach(f)]. *)
Fixpoint forEach {A} (xs : list A) (f : A -> M unit) : M unit :=
  match xs with
  | [] => ret tt
  | x :: rest => f x ;; forEach rest f
  end.

(* ===================================================================== *)
(** ** Offset key normalisation ([offset.ts]) *)
(* ===================================================================== *)

(** The block of [evaluateOffset] that follows [let offsetName = keyNode.val]
    in READ mode (lines 69-94): the diagnostics it prints and the offset
    name it leaves.  The [default] arm of the [switch] is never taken: after
    the illegal-type test the name is a boolean, a string or a number. *)
Definition normalizeRead (offsetName : jsval) : list diag * key :=
  if negb (strict_eq offsetName VUndefined) then
    let illegal :=
      negb (typeof offsetName =? "number")%string
      && negb (typeof offsetName =? "boolean")%string
      && negb (typeof offsetName =? "string")%string in
    let warning :=
      if illegal then [SayVal "Warning: Illegal offset type " offsetName]
      else [] in
    let offsetName := if illegal then VStr EmptyString else offsetName in
    (warning,
     match offsetName with
     | VBool b => KNum (Number_of_bool b)
     | VStr s => if validDecInt s then KNum (StringToNumber s) else KStr s
     | VNum n => KNum (Math_trunc n)
     | _ => KUndefined
     end)
  else ([], KUndefined).

(** The same block in WRITE mode (lines 157-186), where an [undefined] name
    is reported against the offset node [o] and replaced by the empty
    string. *)
Definition normalizeWrite (o : Node) (offsetName : jsval) : list diag * key :=
  if negb (strict_eq offsetName VUndefined) then
    let illegal :=
      negb (typeof offsetName =? "number")%string
      && negb (typeof offsetName =? "boolean")%string
      && negb (typeof offsetName =? "string")%string in
    let warning :=
      if illegal then [SayVal "Warning: Illegal offset type " offsetName]
      else [] in
    let offsetName := if illegal then VStr EmptyString else offsetName in
    (warning,
     match offsetName with
     | VBool b => KNum (Number_of_bool b)
     | VStr s => if validDecInt s then KNum (StringToNumber s) else KStr s
     | VNum n => KNum (Math_trunc n)
     | _ => KUndefined
     end)
  else ([Say ("Notice: Undefined variable " ++ show (name o))],
        KStr EmptyString).

(** [if (typeof offsetName === "string") offsetName = 0;] *)
Definition string_as_zero (offsetName : key) : key :=
  match offsetName with
  | KStr _ => KNum (numZ 0)
  | other => other
  end.

Definition inst_is (item : IStkNode) (i : string) : bool :=
  match inst item with
  | Some j => (j =? i)%string
  | None => false
  end.

Definition absent {A} (o : option A) : bool :=
  match o with
  | Some _ => false
  | None => true
  end.

Definition msg_wrong_node (k : string) : string :=
  "Eval Error: Evaluate wrong AST node: " ++ k ++ ", should be offsetlookup".
Definition msg_empty_read : string :=
  "Fatal error:  Cannot use [] for reading.".
Definition msg_string_ref : string :=
  "Fatal error:  Uncaught Error: Cannot create references to/from string offsets.".
Definition msg_read_type : string :=
  "Eval error: undefined dereferencable-expression type in reading offset".
Definition msg_write_string : string :=
  "Eval Error: wrong type in writing string offset".
Definition msg_write_type : string :=
  "Eval error: undefined type dereferencable-expression in writing offset".
Definition msg_inst (i : option string) : string :=
  "Eval error: " ++ show i ++ " instruction in offset Node".
Definition msg_unknown (k : string) : string :=
  "Eval Error: Unknown expression type: " ++ k.

(* ===================================================================== *)
(** ** Vocabulary of the statements *)
(* ===================================================================== *)

(** The operands [evaluateOffset] pushes before it evaluates the base: the
    offset node, if there is one, under the base node tagged with the
    intent. *)
Definition operands (n : Node) (i : string) (rest : list IStkNode)
  : list IStkNode :=
  stk_node (what n) (Some i)
  :: match offset n with
     | Some o => stk_node (Some o) (Some "READ") :: rest
     | None => rest
     end.

(** The two diagnostics the statements name. *)
Definition scalar_warning : diag :=
  Say "Warning:  Cannot use a scalar value as an array".

(** The offset a string is finally indexed with: a string key counts as 0,
    a negative key counts from the end. *)
Definition string_offset (str : string) (offsetName : key) : key :=
  let offsetName := string_as_zero offsetName in
  if key_ltz offsetName
  then key_add_len offsetName (String.length str)
  else offsetName.

Definition uninitialized (k : key) : diag :=
  SayVal "Notice: Uninitialized string offset " (val_of_key k).


(** The kinds [evaluate] has a branch for. *)
Definition dispatched : list string :=
  ["expressionstatement"; "boolean"; "number"; "string"; "assign";
   "variable"; "array"; "global"].

Definition decimal_step (acc : Z) (c : ascii) : Z := 10 * acc + (code c - 48).


(** A statement made of a bare literal: an [expressionstatement] whose
    expression is an [array], [number], [string] or [boolean] node. *)
Definition literal_statement (n : Node) : Prop :=
  kind n = "expressionstatement" /\
  exists x, expression n = Some x /\
            In (kind x) ["array"; "number"; "string"; "boolean"].

(** The state a computation ends in, whether it returns or throws. *)
Definition final {A} (o : outcome A) : State :=
  match o with
  | Ok _ s => s
  | Throw _ s => s
  end.

(** [m] relates every state it starts in to the state it ends in. *)
Definition keeps {A} (R : State -> State -> Prop) (m : M A) : Prop :=
  forall s, R s (final (m s)).

(** A relation between states that moving stack items and printing
    diagnostics cannot break: it is reflexive and transitive, and it holds
    between two states with the same environment whenever the console of
    the second extends the console of the first. *)
Record step_closed (R : State -> State -> Prop) : Prop := mkClosed {
  closed_refl : forall s, R s s;
  closed_trans : forall s t u, R s t -> R t u -> R s u;
  closed_step : forall l l' e c ds,
      R (mkState l e c) (mkState l' e (c ++ ds)%list)
}.

(** The environment is the same and the console has only grown. *)
Definition env_kept_console_grown (s s' : State) : Prop :=
  env s' = env s /\ exists ds, console s' = (console s ++ ds)%list.


(** A number without fractional part: an integer, a zero, or one of the
    values [Math.trunc] leaves as they are. *)
Definition integral (x : number) : Prop :=
  match x with
  | Fin q => exists z, q = inject_Z z
  | _ => True
  end.

(** The keys the normaliser can leave: [undefined], an integral number, or
    a string that does not match [validDecInt]. *)
Definition canonical_key (k : key) : Prop :=
  match k with
  | KUndefined => True
  | KNum x => integral x
  | KStr s => validDecInt s = false
  end.



(* ===================================================================== *)
(** ** Concrete nodes and stand-ins for running the evaluator *)
(* ===================================================================== *)

(** Nodes as the parser builds them. *)
Definition variable (nm : string) : Node :=
  mkNode "variable" None None None LUndefined false (Some nm).
Definition number_lit (text : string) : Node :=
  mkNode "number" None None None (LStr text) false None.
Definition string_lit (text : string) : Node :=
  mkNode "string" None None None (LStr text) false None.
Definition offsetlookup (w : Node) (o : option Node) : Node :=
  mkNode "offsetlookup" None (Some w) o LUndefined false None.
Definition expressionstatement (e : Node) : Node :=
  mkNode "expressionstatement" (Some e) None None LUndefined false None.
Definition call (nm : string) : Node :=
  mkNode "call" None (Some (mkNode "name" None None None LUndefined false
                                   (Some nm)))
         None LUndefined false None.

(** Modelled from the spec: [evaluateVariable] ([variable.ts]) is not among
    the sources.  The stand-in keeps only the stack contract of a
    sub-evaluator, which "pops exactly one item and must, by the time it
    returns, have pushed exactly one item", and pushes a given item as the
    resolution of the variable.  It serves to run [evaluateOffset] on
    concrete inputs. *)
Definition resolveTo (item : IStkNode) : M unit := pop ;; push item.

(** A sub-evaluator that a given run does not reach. *)
Definition unavailable : M unit :=
  throw (Error "sub-evaluator not available").

(** Stores for concrete runs: every slot holds [v], or no slot can be
    read. *)
Definition storeOf (v : jsval) : Environment.Env -> Z -> Z -> option jsval :=
  fun _ _ _ => Some v.
Definition noStore : Environment.Env -> Z -> Z -> option jsval :=
  fun _ _ _ => None.

(** A node waiting alone on the stack with a given intent, in the
    environment of a new evaluator and with an empty console. *)
Definition pending (n : Node) (i : string) : State :=
  mkState [stk_node (Some n) (Some i)] Environment.new [].

(* ===================================================================== *)
(** ** The evaluator ([evaluator.ts], [offset.ts]) *)
(* ===================================================================== *)

Section Evaluator.

(** The sub-evaluators of [assign.ts], [variable.ts], [array.ts] and
    [global.ts] are not among the sources: the development holds for
    whatever they do to the state. *)
Variables evaluateAssign evaluateVariable evaluateArray evaluateGlobal : M unit.

(** The expression
    [this.env.get(loc.idx).heap._var.vstore.get(loc.vstoreId).val] of
    [evaluateOffset] goes through accessors that [environment.ts] does not
    declare; it is taken as a read-only lookup by environment index and slot
    id, [None] when a step of the chain fails with a [TypeError]. *)
Variable vstoreVal : Environment.Env -> Z -> Z -> option jsval.

(** [Evaluator.prototype.evaluate]: pops the top item and dispatches on the
    kind of its node. *)
Definition evaluate : M unit :=
  top <- pop ;;
  expr <- deref (node top) ;;
  if (kind expr =? "expressionstatement")%string then
    e <- deref (expression expr) ;;
    if (kind e =? "array")%string || (kind e =? "number")%string
       || (kind e =? "string")%string || (kind e =? "boolean")%string
    then ret tt
    else if (kind e =? "assign")%string then
      push (stk_node (Some e) None) ;; evaluateAssign
    else if (kind e =? "variable")%string then
      push (stk_node (Some e) None) ;; evaluateVariable
    else ret tt
  else if (kind expr =? "boolean")%string then
    push (stk_val (VBool (Boolean (value expr))))
  else if (kind expr =? "number")%string then
    push (stk_val (VNum (Number (value expr))))
  else if (kind expr =? "string")%string then
    push (stk_val (VStr (String_ (value expr))))
  else if (kind expr =? "assign")%string then
    push (stk_node (Some expr) None) ;; evaluateAssign
  else if (kind expr =? "variable")%string then
    push (stk_node (Some expr) None) ;; evaluateVariable
  else if (kind expr =? "array")%string then
    push (stk_node (Some expr) None) ;; evaluateArray
  else if (kind expr =? "global")%string then
    push (stk_node (Some expr) None) ;; evaluateGlobal
  else throw (Error (msg_unknown (kind expr))).

(** [Evaluator.prototype.run]: each top-level statement is pushed and
    evaluated in turn; a [throw] ends the loop. *)
Definition run (ast : AST) : M unit :=
  forEach (children ast) (fun child =>
    push (mkStk VUndefined None None (Some child)) ;;
    evaluate).

(** The READ branch of [evaluateOffset] (lines 41-135). *)
Definition evaluateOffset_READ (n : Node) : M unit :=
  match offset n with
  | Some o => push (stk_node (Some o) (Some "READ"))
  | None => ret tt
  end ;;
  push (stk_node (what n) (Some "READ")) ;;
  evaluate ;;
  derefNode <- pop ;;
  if strict_eq (val derefNode) VUndefined then
    w <- deref (what n) ;;
    console_error (Say ("Notice: Undefined variable " ++ show (name w))) ;;
    push (stk_val VNull)
  else if strict_eq (val derefNode) VNull then
    push (stk_val VNull)
  else
    evaluate ;;
    keyNode <- pop ;;
    let (warnings, offsetName) := normalizeRead (val keyNode) in
    emit warnings ;;
    match val derefNode with
    | VBool _ | VNum _ => push (stk_val VNull)
    | VStr str =>
        w <- deref (what n) ;;
        if byref w then throw (Error msg_string_ref)
        else
          let offsetName := string_as_zero offsetName in
          let offsetName :=
            if key_ltz offsetName
            then key_add_len offsetName (String.length str)
            else offsetName in
          when (strict_eq (str_at str offsetName) VUndefined)
               (console_error (SayVal "Notice: Uninitialized string offset "
                                      (val_of_key offsetName))) ;;
          push (stk_val (str_at str offsetName))
    | VIArray array =>
        if (Map_size array =? 0)%nat
           || strict_eq (Map_get array (val_of_key offsetName)) VUndefined
        then
          console_error (SayVal "Notice: Undefined offset: "
                                (val_of_key offsetName)) ;;
          push (stk_val VNull)
        else push (stk_val (Map_get array (val_of_key offsetName)))
    | VIObject => ret tt
    | _ => throw (Error msg_read_type)
    end.

(** "Now there are deref and offset, we can get its memory location": the
    end of the WRITE branch (lines 191-237). *)
Definition locate (n : Node) (derefNode : IStkNode) (offsetName : key)
  : M unit :=
  l <- deref (loc derefNode) ;;
  let t := Location.type l in
  if (typeof t =? "boolean")%string || (typeof t =? "number")%string then
    console_error (Say "Warning:  Cannot use a scalar value as an array") ;;
    push (stk_loc None)
  else if (typeof t =? "string")%string then
    w <- deref (what n) ;;
    if byref w then throw (Error msg_string_ref)
    else
      let offsetName := string_as_zero offsetName in
      stored <- (fun s =>
                   match vstoreVal (env s) (Location.idx l)
                                   (Location.vstoreId l) with
                   | Some v => Ok v s
                   | None => Throw TypeError s
                   end) ;;
      match stored with
      | VStr str =>
          offsetName <-
            (if key_ltz offsetName then
               let moved := key_add_len offsetName (String.length str) in
               when (key_ltz moved)
                    (console_error (SayVal "Warning: Illegal string offset "
                                           (val_of_key moved))) ;;
               ret moved
             else ret offsetName) ;;
          push (stk_loc (Some (Location.set_offset l offsetName)))
      | _ => throw (Error msg_write_string)
      end
  else if strict_eq t (VStr "array") then push stk_empty
  else if strict_eq t (VStr "object") then ret tt
  else if strict_eq t (VStr "null") then ret tt
  else throw (Error msg_write_type).

(** The WRITE branch of [evaluateOffset] (lines 137-237). *)
Definition evaluateOffset_WRITE (n : Node) : M unit :=
  match offset n with
  | Some o => push (stk_node (Some o) (Some "READ"))
  | None => ret tt
  end ;;
  push (stk_node (what n) (Some "WRITE")) ;;
  evaluate ;;
  derefNode <- pop ;;
  offsetName <-
    match offset n with
    | Some o =>
        evaluate ;;
        keyNode <- pop ;;
        let (warnings, offsetName) := normalizeWrite o (val keyNode) in
        emit warnings ;;
        ret offsetName
    | None => ret (KNum (numZ 0))
    end ;;
  locate n derefNode offsetName.

(** [Evaluator.prototype.evaluateOffset]: the checks on the popped item
    (lines 26-35), then the branch of its intent. *)
Definition evaluateOffset : M unit :=
  offsetNode <- pop ;;
  n <- deref (node offsetNode) ;;
  if negb (kind n =? "offsetlookup")%string then
    throw (Error (msg_wrong_node (kind n)))
  else if negb (inst_is offsetNode "WRITE") && absent (offset n) then
    throw (Error msg_empty_read)
  else if inst_is offsetNode "READ" then evaluateOffset_READ n
  else if inst_is offsetNode "WRITE" then evaluateOffset_WRITE n
  else throw (Error (msg_inst (inst offsetNode))).


(* ===================================================================== *)
(** ** The host functions on samples *)
(* ===================================================================== *)

Example StringToNumber_samples :
  StringToNumber "0x539" = numZ 1337 /\
  StringToNumber "0b10100111001" = numZ 1337 /\
  StringToNumber "1337e0" = numZ 1337 /\
  StringToNumber "13.37e2" = numZ 1337 /\
  StringToNumber "02471" = numZ 2471 /\
  StringToNumber " 12 " = numZ 12 /\
  StringToNumber EmptyString = numZ 0 /\
  StringToNumber "-0" = NZero /\
  StringToNumber "-17" = numZ (-17) /\
  StringToNumber "1.5" = Fin (3 # 2) /\
  StringToNumber "-Infinity" = NInf /\
  StringToNumber "0x" = NaN /\
  StringToNumber "-0x10" = NaN /\
  StringToNumber "1e" = NaN /\
  StringToNumber "." = NaN /\
  StringToNumber "5." = numZ 5 /\
  StringToNumber ".5" = Fin (1 # 2).
Proof. repeat split; vm_compute; reflexivity. Qed.

Example validDecInt_samples :
  validDecInt EmptyString = true /\
  validDecInt "0" = true /\ validDecInt "-0" = true /\
  validDecInt "-10" = true /\ validDecInt "-7" = true /\
  validDecInt "10" = false /\ validDecInt "7" = false /\
  validDecInt "08" = false /\ validDecInt "010" = false /\
  validDecInt "10.0" = false /\ validDecInt "-01" = false /\
  validDecInt "-" = false /\ validDecInt "--1" = false /\
  validDecInt "foo" = false /\ validDecInt "-1a" = false.
Proof. repeat split; reflexivity. Qed.

(* ===================================================================== *)
(** ** Stepping through the monad *)
(* ===================================================================== *)

Lemma bind_Ok {A B} (m : M A) (f : A -> M B) s a s' :
  m s = Ok a s' -> bind m f s = f a s'.
Proof. unfold bind. intros ->. reflexivity. Qed.

Lemma bind_Throw {A B} (m : M A) (f : A -> M B) s e s' :
  m s = Throw e s' -> bind m f s = Throw e s'.
Proof. unfold bind. intros ->. reflexivity. Qed.

Lemma emit_run (ds : list diag) (l : list IStkNode) e c :
  emit ds (mkState l e c) = Ok tt (mkState l e (c ++ ds)).
Proof.
  revert c. induction ds as [|d ds IH]; intros c; cbn.
  - now rewrite app_nil_r.
  - unfold bind. cbn. rewrite IH. now rewrite <- app_assoc.
Qed.

Ltac ev :=
  unfold stk_node, stk_val, stk_loc, stk_empty, set_stk in *;
  cbn -[evaluate normalizeRead normalizeWrite String.append emit] in *.

Ltac sub H := rewrite (bind_Ok _ _ _ _ _ H); ev.

(** [evaluate] with an item that carries no node fails in the host. *)
Lemma evaluate_no_node v l i rest e c :
  evaluate (mkState (mkStk v l i None :: rest) e c)
  = Throw TypeError (mkState rest e c).
Proof. reflexivity. Qed.

(** When the base of a subscript has been evaluated, the subscript node has
    a [what]. *)
Lemma evaluated_what n i rest e c s :
  evaluate (mkState (stk_node (what n) i :: rest) e c) = Ok tt s ->
  exists w, what n = Some w.
Proof.
  destruct (what n) as [w|]; [eauto|].
  unfold stk_node. rewrite evaluate_no_node. discriminate.
Qed.

(* ===================================================================== *)
(** ** READ on a base without subscripts *)
(* ===================================================================== *)

(** The READ branch up to the point where the base has been popped. *)
Lemma read_after_base v l rest n o d rest1 e e1 c c1 :
  kind n = "offsetlookup" ->
  offset n = Some o ->
  evaluate (mkState (stk_node (what n) (Some "READ")
                     :: stk_node (Some o) (Some "READ") :: rest) e c)
  = Ok tt (mkState (d :: rest1) e1 c1) ->
  evaluateOffset (mkState (mkStk v l (Some "READ") (Some n) :: rest) e c)
  = (if strict_eq (val d) VUndefined then
       w <- deref (what n) ;;
       console_error (Say ("Notice: Undefined variable " ++ show (name w))) ;;
       push (stk_val VNull)
     else if strict_eq (val d) VNull then push (stk_val VNull)
     else
       evaluate ;;
       keyNode <- pop ;;
       let (warnings, offsetName) := normalizeRead (val keyNode) in
       emit warnings ;;
       match val d with
       | VBool _ | VNum _ => push (stk_val VNull)
       | VStr str =>
           w <- deref (what n) ;;
           if byref w then throw (Error msg_string_ref)
           else
             let offsetName := string_as_zero offsetName in
             let offsetName :=
               if key_ltz offsetName
               then key_add_len offsetName (String.length str)
               else offsetName in
             when (strict_eq (str_at str offsetName) VUndefined)
                  (console_error
                     (SayVal "Notice: Uninitialized string offset "
                             (val_of_key offsetName))) ;;
             push (stk_val (str_at str offsetName))
       | VIArray array =>
           if (Map_size array =? 0)%nat
              || strict_eq (Map_get array (val_of_key offsetName)) VUndefined
           then
             console_error (SayVal "Notice: Undefined offset: "
                                   (val_of_key offsetName)) ;;
             push (stk_val VNull)
           else push (stk_val (Map_get array (val_of_key offsetName)))
       | VIObject => ret tt
       | _ => throw (Error msg_read_type)
       end) (mkState rest1 e1 c1).
Proof.
  intros Hk Ho He.
  unfold evaluateOffset, evaluateOffset_READ. ev.
  rewrite Hk, Ho. ev. sub He. reflexivity.
Qed.


(** C9: READ intent, subscript present, base evaluated to the item [d].
    If [d] carries no value ([undefined], an unresolved name) the notice
    "Undefined variable" is printed and the pushed item holds [null]; if it
    carries [null], [null] is pushed and nothing is printed; if it carries a
    boolean or a number, the key is evaluated and normalised and [null] is
    pushed.  In the three cases [evaluateOffset] returns normally. *)
Theorem read_offset_of_missing_or_scalar_base
    v l rest n w o d rest1 e e1 c c1 :
  kind n = "offsetlookup" ->
  what n = Some w ->
  offset n = Some o ->
  evaluate (mkState (stk_node (Some w) (Some "READ")
                     :: stk_node (Some o) (Some "READ") :: rest) e c)
  = Ok tt (mkState (d :: rest1) e1 c1) ->
  (val d = VUndefined ->
   evaluateOffset (mkState (mkStk v l (Some "READ") (Some n) :: rest) e c)
   = Ok tt (mkState (stk_val VNull :: rest1) e1
              (c1 ++ [Say ("Notice: Undefined variable " ++ show (name w))])))
  /\ (val d = VNull ->
      evaluateOffset (mkState (mkStk v l (Some "READ") (Some n) :: rest) e c)
      = Ok tt (mkState (stk_val VNull :: rest1) e1 c1))
  /\ (typeof (val d) = "boolean" \/ typeof (val d) = "number" ->
      forall k rest2 e2 c2,
        evaluate (mkState rest1 e1 c1) = Ok tt (mkState (k :: rest2) e2 c2) ->
        evaluateOffset (mkState (mkStk v l (Some "READ") (Some n) :: rest) e c)
        = Ok tt (mkState (stk_val VNull :: rest2) e2
                   (c2 ++ fst (normalizeRead (val k))))).
Proof.
  intros Hk Hw Ho He. rewrite <- Hw in He.
  pose proof (read_after_base v l rest n o d rest1 e e1 c c1 Hk Ho He) as Hr.
  repeat split.
  - intros Hd. rewrite Hr, Hd, Hw. reflexivity.
  - intros Hd. rewrite Hr, Hd. reflexivity.
  - intros Hd k rest2 e2 c2 He2. rewrite Hr.
    assert (Hs : exists x, val d = VBool x \/ exists y, val d = VNum y).
    { destruct (val d); cbn in Hd; destruct Hd as [Hd|Hd]; try discriminate;
        [exists b | exists true]; eauto. }
    destruct Hs as [x [Hv|[y Hv]]]; rewrite Hv; ev; sub He2;
      destruct (normalizeRead (val k)) as [ws key]; ev;
      rewrite (bind_Ok _ _ _ _ _ (emit_run ws _ _ _)); reflexivity.
Qed.

(* ===================================================================== *)
(** ** The stack discipline of [evaluateOffset] *)
(* ===================================================================== *)

(** C4: where [evaluateOffset] breaks the pop-one/push-one discipline.
    (1) READ with a subscript, base resolved to [undefined] or [null] by an
    evaluation that itself kept the discipline: the function returns early
    and the pending offset item it pushed stays on the stack under the
    result, so one item was popped and two are left.  (2) READ with a base
    that is an [IObject]: base and key are consumed and nothing is
    pushed. *)
Theorem read_offset_breaks_stack_discipline
    v l rest n o d e e1 c c1 :
  kind n = "offsetlookup" ->
  offset n = Some o ->
  evaluate (mkState (stk_node (what n) (Some "READ")
                     :: stk_node (Some o) (Some "READ") :: rest) e c)
  = Ok tt (mkState (d :: stk_node (Some o) (Some "READ") :: rest) e1 c1) ->
  (val d = VUndefined \/ val d = VNull ->
   exists c2,
     evaluateOffset (mkState (mkStk v l (Some "READ") (Some n) :: rest) e c)
     = Ok tt (mkState (stk_val VNull :: stk_node (Some o) (Some "READ") :: rest)
                e1 c2)
     /\ length (stk_val VNull :: stk_node (Some o) (Some "READ") :: rest)
        = S (length (mkStk v l (Some "READ") (Some n) :: rest)))
  /\ (val d = VIObject ->
      forall k e2 c2,
        evaluate (mkState (stk_node (Some o) (Some "READ") :: rest) e1 c1)
        = Ok tt (mkState (k :: rest) e2 c2) ->
        exists c3,
          evaluateOffset
            (mkState (mkStk v l (Some "READ") (Some n) :: rest) e c)
          = Ok tt (mkState rest e2 c3)).
Proof.
  intros Hk Ho He.
  pose proof (read_after_base v l rest n o d _ e e1 c c1 Hk Ho He) as Hr.
  destruct (evaluated_what _ _ _ _ _ _ He) as [w Hw].
  split.
  - intros [Hd|Hd]; rewrite Hr, Hd; ev.
    + rewrite Hw. ev. eexists. split; reflexivity.
    + eexists. split; reflexivity.
  - intros Hd k e2 c2 He2. rewrite Hr, Hd. ev. sub He2.
    destruct (normalizeRead (val k)) as [ws key]. ev.
    rewrite (bind_Ok _ _ _ _ _ (emit_run ws _ _ _)). eexists. reflexivity.
Qed.


(* ===================================================================== *)
(** ** WRITE: locating the subscript *)
(* ===================================================================== *)

(** The WRITE branch up to the point where the base has been popped. *)
Lemma write_after_base v l rest n d rest1 e e1 c c1 :
  kind n = "offsetlookup" ->
  evaluate (mkState (operands n "WRITE" rest) e c)
  = Ok tt (mkState (d :: rest1) e1 c1) ->
  evaluateOffset (mkState (mkStk v l (Some "WRITE") (Some n) :: rest) e c)
  = (offsetName <-
       match offset n with
       | Some o =>
           evaluate ;;
           keyNode <- pop ;;
           let (warnings, offsetName) := normalizeWrite o (val keyNode) in
           emit warnings ;;
           ret offsetName
       | None => ret (KNum (numZ 0))
       end ;;
     locate n d offsetName) (mkState rest1 e1 c1).
Proof.
  intros Hk He.
  unfold evaluateOffset, evaluateOffset_WRITE, operands in *. ev.
  rewrite Hk. ev. destruct (offset n) as [o|]; ev; sub He; reflexivity.
Qed.

(** The key of a WRITE, once evaluated: the state moves to the one left by
    the key's evaluation, with the normaliser's diagnostics printed. *)
Lemma write_key o k rest2 e1 e2 c1 c2 rest1 (f : key -> M unit) :
  evaluate (mkState rest1 e1 c1) = Ok tt (mkState (k :: rest2) e2 c2) ->
  (offsetName <-
     (evaluate ;;
      keyNode <- pop ;;
      let (warnings, offsetName) := normalizeWrite o (val keyNode) in
      emit warnings ;;
      ret offsetName) ;;
   f offsetName) (mkState rest1 e1 c1)
  = f (snd (normalizeWrite o (val k)))
      (mkState rest2 e2 (c2 ++ fst (normalizeWrite o (val k)))).
Proof.
  intros He. unfold bind at 1 2. rewrite He. ev.
  destruct (normalizeWrite o (val k)) as [ws key]. ev.
  unfold bind. rewrite emit_run. reflexivity.
Qed.

(** The scalar arm of [locate] (lines 192-196), taken when [typeof] of the
    location's [type] is ["boolean"] or ["number"]: once the key, if any,
    has been evaluated, [evaluateOffset] prints "Cannot use a scalar value
    as an array", pushes an item whose [loc] is [undefined] and returns
    normally; the environment is the one the operand evaluations left. *)
Lemma write_offset_scalar_arm v l rest n d lc rest1 e e1 c c1 :
  kind n = "offsetlookup" ->
  evaluate (mkState (operands n "WRITE" rest) e c)
  = Ok tt (mkState (d :: rest1) e1 c1) ->
  loc d = Some lc ->
  typeof (Location.type lc) = "boolean"
  \/ typeof (Location.type lc) = "number" ->
  match offset n with
  | None =>
      evaluateOffset (mkState (mkStk v l (Some "WRITE") (Some n) :: rest) e c)
      = Ok tt (mkState (stk_loc None :: rest1) e1 (c1 ++ [scalar_warning]))
  | Some o =>
      forall k rest2 e2 c2,
        evaluate (mkState rest1 e1 c1) = Ok tt (mkState (k :: rest2) e2 c2) ->
        evaluateOffset
          (mkState (mkStk v l (Some "WRITE") (Some n) :: rest) e c)
        = Ok tt (mkState (stk_loc None :: rest2) e2
                   ((c2 ++ fst (normalizeWrite o (val k)))
                    ++ [scalar_warning]))
  end.
Proof.
  intros Hk He Hl Ht.
  pose proof (write_after_base v l rest n d rest1 e e1 c c1 Hk He) as Hr.
  assert (Hs : (typeof (Location.type lc) =? "boolean")%string
               || (typeof (Location.type lc) =? "number")%string = true).
  { destruct Ht as [-> | ->]; reflexivity. }
  destruct (offset n) as [o|].
  - intros k rest2 e2 c2 He2. rewrite Hr.
    rewrite (write_key o k rest2 e1 e2 c1 c2 rest1 _ He2).
    unfold locate. rewrite Hl. ev. rewrite Hs. reflexivity.
  - rewrite Hr. unfold locate. rewrite Hl. ev. rewrite Hs. reflexivity.
Qed.

(** A type tag is a string, whatever it names: [typeof] of the tags
    ["boolean"], ["number"], ["array"], ["object"] and ["null"] is
    ["string"], so none of them passes the tests of the scalar arm and all
    of them pass the test of the string arm, which comes before the arms
    that compare the tag. *)
Lemma tag_is_a_string (tag : string) :
  (typeof (VStr tag) =? "boolean")%string
  || (typeof (VStr tag) =? "number")%string = false
  /\ (typeof (VStr tag) =? "string")%string = true.
Proof. split; reflexivity. Qed.

Lemma array_tag_is_a_string (t : jsval) :
  strict_eq t (VStr "array") = true -> typeof t = "string".
Proof. destruct t; cbn; try discriminate; reflexivity. Qed.

(** The string arm of [locate] on a slot that does not hold a string. *)
Lemma locate_string_arm_rejects n w d lc x k l e c :
  what n = Some w ->
  loc d = Some lc ->
  typeof (Location.type lc) = "string" ->
  vstoreVal e (Location.idx lc) (Location.vstoreId lc) = Some x ->
  typeof x <> "string" ->
  locate n d k (mkState l e c)
  = Throw (Error (if byref w then msg_string_ref else msg_write_string))
          (mkState l e c).
Proof.
  intros Hw Hl Ht Hv Hx. unfold locate. rewrite Hl. ev. rewrite Ht, Hw. ev.
  destruct (byref w); ev; [reflexivity|].
  unfold bind. cbn [env]. rewrite Hv.
  destruct x; try reflexivity. cbn in Hx. congruence.
Qed.

(** C1: WRITE intent, base evaluated to an item whose location carries a
    type tag (a string, such as ["number"] or ["boolean"]) and whose slot
    holds a boolean or a number.  The scalar arm tests [typeof] of the tag
    and is skipped; the string arm runs and, the slot not holding a string,
    [evaluateOffset] throws "wrong type in writing string offset" (or the
    by-reference error).  The warning "Cannot use a scalar value as an
    array" is not printed and nothing is pushed. *)
Theorem write_offset_on_scalar_value
    v l rest n w d lc x rest1 e e1 c c1 :
  kind n = "offsetlookup" ->
  what n = Some w ->
  evaluate (mkState (operands n "WRITE" rest) e c)
  = Ok tt (mkState (d :: rest1) e1 c1) ->
  loc d = Some lc ->
  typeof (Location.type lc) = "string" ->
  typeof x = "boolean" \/ typeof x = "number" ->
  match offset n with
  | None =>
      vstoreVal e1 (Location.idx lc) (Location.vstoreId lc) = Some x ->
      evaluateOffset (mkState (mkStk v l (Some "WRITE") (Some n) :: rest) e c)
      = Throw (Error (if byref w then msg_string_ref else msg_write_string))
              (mkState rest1 e1 c1)
  | Some o =>
      forall k rest2 e2 c2,
        evaluate (mkState rest1 e1 c1) = Ok tt (mkState (k :: rest2) e2 c2) ->
        vstoreVal e2 (Location.idx lc) (Location.vstoreId lc) = Some x ->
        evaluateOffset
          (mkState (mkStk v l (Some "WRITE") (Some n) :: rest) e c)
        = Throw (Error (if byref w then msg_string_ref else msg_write_string))
                (mkState rest2 e2 (c2 ++ fst (normalizeWrite o (val k))))
  end.
Proof.
  intros Hk Hw He Hl Ht Hx.
  pose proof (write_after_base v l rest n d rest1 e e1 c c1 Hk He) as Hr.
  assert (Hns : typeof x <> "string")
    by (destruct Hx as [-> | ->]; discriminate).
  destruct (offset n) as [o|].
  - intros k rest2 e2 c2 He2 Hv. rewrite Hr.
    rewrite (write_key o k rest2 e1 e2 c1 c2 rest1 _ He2).
    apply (locate_string_arm_rejects n w d lc x _ _ _ _ Hw Hl Ht Hv Hns).
  - intros Hv. rewrite Hr. ev.
    apply (locate_string_arm_rejects n w d lc x _ _ _ _ Hw Hl Ht Hv Hns).
Qed.

(** C2: WRITE intent with a key, base evaluated to an item whose location
    is typed ["array"] and whose slot holds an array: the arm for arrays is
    not reached, [evaluateOffset] takes the string arm and throws (the
    by-reference error, or "wrong type in writing string offset"); no item
    is pushed and the normalised key is dropped. *)
Theorem write_offset_on_array_location
    v l rest n w o d lc elt k rest1 rest2 e e1 e2 c c1 c2 :
  kind n = "offsetlookup" ->
  what n = Some w ->
  offset n = Some o ->
  evaluate (mkState (operands n "WRITE" rest) e c)
  = Ok tt (mkState (d :: rest1) e1 c1) ->
  loc d = Some lc ->
  Location.type lc = VStr "array" ->
  evaluate (mkState rest1 e1 c1) = Ok tt (mkState (k :: rest2) e2 c2) ->
  vstoreVal e2 (Location.idx lc) (Location.vstoreId lc) = Some (VIArray elt) ->
  evaluateOffset (mkState (mkStk v l (Some "WRITE") (Some n) :: rest) e c)
  = Throw (Error (if byref w then msg_string_ref else msg_write_string))
          (mkState rest2 e2 (c2 ++ fst (normalizeWrite o (val k)))).
Proof.
  intros Hk Hw Ho He Hl Ht He2 Hv.
  rewrite (write_after_base v l rest n d rest1 e e1 c c1 Hk He), Ho.
  rewrite (write_key o k rest2 e1 e2 c1 c2 rest1 _ He2).
  apply (locate_string_arm_rejects n w d lc (VIArray elt) _ _ _ _ Hw Hl);
    [rewrite Ht; reflexivity | exact Hv | discriminate].
Qed.

(* ===================================================================== *)
(** ** The empty subscript *)
(* ===================================================================== *)

(** [locate] has its own failures, none of which is the empty-subscript
    error. *)
Lemma locate_not_empty_read n d k s s' :
  locate n d k s <> Throw (Error msg_empty_read) s'.
Proof.
  unfold locate, bind, deref, ret, throw, push, console_error, when.
  destruct (loc d) as [lc|]; [|discriminate].
  destruct ((typeof (Location.type lc) =? "boolean")%string
            || (typeof (Location.type lc) =? "number")%string);
    [discriminate|].
  destruct (typeof (Location.type lc) =? "string")%string.
  - destruct (what n) as [w|]; [|discriminate].
    destruct (byref w); [discriminate|].
    destruct (vstoreVal _ _ _) as [[| | | | str | | |]|]; try discriminate.
    destruct (key_ltz (string_as_zero k)); [|discriminate].
    destruct (key_ltz _); discriminate.
  - destruct (strict_eq _ _); [discriminate|].
    destruct (strict_eq _ _); [discriminate|].
    destruct (strict_eq _ _); discriminate.
Qed.

(** C6: an [offsetlookup] without offset node.  Unless the intent tag is
    WRITE (it may be READ, absent, or anything else), [evaluateOffset]
    throws "Cannot use [] for reading" having only popped its item:
    environment and console are untouched.  Under WRITE it goes on: the base
    is evaluated with WRITE intent and located under the key 0, and whatever
    happens next is not the empty-subscript error. *)
Theorem empty_subscript v l i rest n e c :
  kind n = "offsetlookup" ->
  offset n = None ->
  (i <> Some "WRITE" ->
   evaluateOffset (mkState (mkStk v l i (Some n) :: rest) e c)
   = Throw (Error msg_empty_read) (mkState rest e c))
  /\ (i = Some "WRITE" ->
      evaluateOffset (mkState (mkStk v l i (Some n) :: rest) e c)
      = (evaluate ;;
         derefNode <- pop ;;
         locate n derefNode (KNum (numZ 0)))
          (mkState (stk_node (what n) (Some "WRITE") :: rest) e c)
      /\ forall d rest1 e1 c1 s',
          evaluate (mkState (stk_node (what n) (Some "WRITE") :: rest) e c)
          = Ok tt (mkState (d :: rest1) e1 c1) ->
          evaluateOffset (mkState (mkStk v l i (Some n) :: rest) e c)
          <> Throw (Error msg_empty_read) s').
Proof.
  intros Hk Ho. split.
  - intros Hi. unfold evaluateOffset. ev. rewrite Hk, Ho. ev.
    assert (Hw : inst_is (mkStk v l i (Some n)) "WRITE" = false).
    { unfold inst_is. cbn. destruct i as [j|]; [|reflexivity].
      destruct (String.eqb_spec j "WRITE"); [subst; congruence|reflexivity]. }
    rewrite Hw. reflexivity.
  - intros ->.
    assert (Hr : evaluateOffset
                   (mkState (mkStk v l (Some "WRITE") (Some n) :: rest) e c)
                 = (evaluate ;;
                    derefNode <- pop ;;
                    locate n derefNode (KNum (numZ 0)))
                     (mkState (stk_node (what n) (Some "WRITE") :: rest) e c)).
    { unfold evaluateOffset, evaluateOffset_WRITE. ev. rewrite Hk, Ho. ev.
      unfold bind. destruct (evaluate _) as [[] s1|]; [|reflexivity].
      destruct (pop s1); reflexivity. }
    split; [exact Hr|].
    intros d rest1 e1 c1 s' He. rewrite Hr. unfold bind at 1. rewrite He.
    unfold bind, pop. cbn [stk set_stk env console].
    apply locate_not_empty_read.
Qed.


(* ===================================================================== *)
(** ** Facts about host numbers *)
(* ===================================================================== *)

Lemma Qred_inject_Z (z : Z) : Qred (inject_Z z) = inject_Z z.
Proof.
  unfold Qred, inject_Z.
  pose proof (Z.ggcd_gcd z 1) as Hg.
  pose proof (Z.ggcd_correct_divisors z 1) as Hd.
  destruct (Z.ggcd z 1) as [g [aa bb]]. cbn in Hg.
  rewrite Z.gcd_1_r in Hg. subst g. destruct Hd as [Ha Hb].
  rewrite Z.mul_1_l in Ha, Hb. subst aa bb. reflexivity.
Qed.

Lemma Qred_integer (q : Q) (z : Z) : q == inject_Z z -> Qred q = inject_Z z.
Proof.
  intros H. rewrite (Qred_complete _ _ H). apply Qred_inject_Z.
Qed.






(* ===================================================================== *)
(** ** READ on a string *)
(* ===================================================================== *)

(** READ of a subscript on a string that is not taken by reference. *)
Lemma read_string_base
    v l rest n w o d str k rest1 rest2 e e1 e2 c c1 c2 :
  kind n = "offsetlookup" ->
  what n = Some w ->
  byref w = false ->
  offset n = Some o ->
  evaluate (mkState (stk_node (Some w) (Some "READ")
                     :: stk_node (Some o) (Some "READ") :: rest) e c)
  = Ok tt (mkState (d :: rest1) e1 c1) ->
  val d = VStr str ->
  evaluate (mkState rest1 e1 c1) = Ok tt (mkState (k :: rest2) e2 c2) ->
  let at_ := string_offset str (snd (normalizeRead (val k))) in
  evaluateOffset (mkState (mkStk v l (Some "READ") (Some n) :: rest) e c)
  = Ok tt (mkState (stk_val (str_at str at_) :: rest2) e2
             ((c2 ++ fst (normalizeRead (val k)))
              ++ (if strict_eq (str_at str at_) VUndefined
                  then [uninitialized at_] else []))).
Proof.
  intros Hk Hw Hb Ho He Hd He2 at_. rewrite <- Hw in He.
  rewrite (read_after_base v l rest n o d rest1 e e1 c c1 Hk Ho He).
  rewrite Hd. ev. sub He2.
  subst at_. unfold string_offset.
  destruct (normalizeRead (val k)) as [ws key]. ev.
  rewrite (bind_Ok _ _ _ _ _ (emit_run ws _ _ _)).
  rewrite Hw. ev. rewrite Hb. ev.
  destruct (strict_eq _ VUndefined); ev; [reflexivity|].
  now rewrite app_nil_r.
Qed.


(** C10: READ intent on a string base (not taken by reference) whose key
    is a string that does not match [validDecInt]: the key is replaced by 0
    and nothing is printed for it.  A non-empty base yields its first
    character and an unchanged console; the empty string has no character
    at 0 and yields [undefined] with the out-of-range notice. *)
Theorem read_string_at_string_key
    v l rest n w o d str k t rest1 rest2 e e1 e2 c c1 c2 :
  kind n = "offsetlookup" ->
  what n = Some w ->
  byref w = false ->
  offset n = Some o ->
  evaluate (mkState (stk_node (Some w) (Some "READ")
                     :: stk_node (Some o) (Some "READ") :: rest) e c)
  = Ok tt (mkState (d :: rest1) e1 c1) ->
  val d = VStr str ->
  evaluate (mkState rest1 e1 c1) = Ok tt (mkState (k :: rest2) e2 c2) ->
  val k = VStr t ->
  validDecInt t = false ->
  normalizeRead (val k) = ([], KStr t)
  /\ evaluateOffset (mkState (mkStk v l (Some "READ") (Some n) :: rest) e c)
     = match str with
       | String ch _ =>
           Ok tt (mkState (stk_val (VStr (String ch EmptyString)) :: rest2)
                    e2 c2)
       | EmptyString =>
           Ok tt (mkState (stk_val VUndefined :: rest2) e2
                    (c2 ++ [uninitialized (KNum (numZ 0))]))
       end.
Proof.
  intros Hk Hw Hb Ho He Hd He2 Hv Ht.
  assert (Hn : normalizeRead (val k) = ([], KStr t)).
  { rewrite Hv. unfold normalizeRead. cbn. rewrite Ht. reflexivity. }
  split; [exact Hn|].
  rewrite (read_string_base v l rest n w o d str k rest1 rest2 e e1 e2 c c1 c2
             Hk Hw Hb Ho He Hd He2).
  rewrite Hn. cbn [fst snd]. rewrite app_nil_r.
  destruct str as [|ch str']; cbn; [reflexivity | now rewrite app_nil_r].
Qed.


(* ===================================================================== *)
(** ** Dispatch in [evaluate] *)
(* ===================================================================== *)

Lemma eqb_of_neq (a b : string) : a <> b -> (a =? b)%string = false.
Proof. intros H. destruct (String.eqb_spec a b); congruence. Qed.

(** C5 (as amended): a node whose kind [evaluate] has no branch for and
    that reaches it directly makes it throw "Unknown expression type"
    followed by the kind, having only popped the item; as a top-level
    statement it aborts [run], the statements after it are not evaluated.
    An [expressionstatement] whose expression is neither an [assign] nor a
    [variable] is dropped: nothing is thrown, pushed or printed. *)
Theorem unknown_kind v l i rest n e c :
  (~ In (kind n) dispatched ->
   evaluate (mkState (mkStk v l i (Some n) :: rest) e c)
   = Throw (Error ("Eval Error: Unknown expression type: " ++ kind n))
           (mkState rest e c))
  /\ (~ In (kind n) dispatched ->
      forall later,
        run (mkAST (n :: later)) (mkState rest e c)
        = Throw (Error ("Eval Error: Unknown expression type: " ++ kind n))
                (mkState rest e c))
  /\ (forall x,
        kind n = "expressionstatement" ->
        expression n = Some x ->
        kind x <> "assign" ->
        kind x <> "variable" ->
        evaluate (mkState (mkStk v l i (Some n) :: rest) e c)
        = Ok tt (mkState rest e c)).
Proof.
  assert (Hthrow : forall v' l' i',
             ~ In (kind n) dispatched ->
             evaluate (mkState (mkStk v' l' i' (Some n) :: rest) e c)
             = Throw (Error ("Eval Error: Unknown expression type: "
                             ++ kind n))
                     (mkState rest e c)).
  { intros v' l' i' Hn. unfold dispatched in Hn. cbn [In] in Hn.
    unfold evaluate. ev.
    repeat (rewrite eqb_of_neq
              by (intros E; apply Hn; rewrite E;
                  repeat ((left; reflexivity) || right))).
    reflexivity. }
  split; [apply Hthrow | split].
  - intros Hn later. unfold run. cbn [children forEach].
    unfold bind at 1 2. unfold push at 1. ev.
    rewrite (Hthrow VUndefined None None Hn). reflexivity.
  - intros x Hk Hx Ha Hv. unfold evaluate. ev. rewrite Hk, Hx. ev.
    rewrite (eqb_of_neq _ _ Ha), (eqb_of_neq _ _ Hv).
    destruct (_ || _); reflexivity.
Qed.

(** C3: what [evaluate] pushes for number literals: the spellings
    [0x539], [0b10100111001], [1337e0] and [1337] give 1337, and [02471]
    gives 2471, the host reading a leading zero as decimal. *)
Theorem number_literal_spellings rest e c :
  let literal text := mkState (stk_node (Some (number_lit text)) None :: rest)
                              e c in
  let pushed z := Ok tt (mkState (stk_val (VNum (numZ z)) :: rest) e c) in
  evaluate (literal "0x539") = pushed 1337
  /\ evaluate (literal "0b10100111001") = pushed 1337
  /\ evaluate (literal "1337e0") = pushed 1337
  /\ evaluate (literal "1337") = pushed 1337
  /\ evaluate (literal "02471") = pushed 2471
  /\ numZ 2471 <> numZ 1337.
Proof.
  cbv zeta. repeat split; try reflexivity. discriminate.
Qed.


(* ===================================================================== *)
(** ** Offset key normalisation *)
(* ===================================================================== *)

Lemma code_inj (a b : ascii) : code a = code b -> a = b.
Proof.
  unfold code. intros H. apply N2Z.inj in H.
  rewrite <- (ascii_N_embedding a), <- (ascii_N_embedding b). now rewrite H.
Qed.

Lemma digit_not_ws (c : ascii) : is_digit c = true -> is_ws c = false.
Proof. unfold is_digit, is_ws. lia. Qed.

Lemma drop_ws_head (c : ascii) (l : list ascii) :
  is_ws c = false -> drop_ws (c :: l) = c :: l.
Proof. intros H. cbn. now rewrite H. Qed.

Lemma trim_clean (l : list ascii) :
  forallb (fun c => negb (is_ws c)) l = true -> trim l = l.
Proof.
  intros H. unfold trim.
  assert (D : forall k, forallb (fun c => negb (is_ws c)) k = true ->
                        drop_ws k = k).
  { intros [|c k] Hk; [reflexivity|]. cbn in Hk.
    apply andb_prop in Hk. destruct Hk as [Hc _].
    apply drop_ws_head. now apply negb_true_iff. }
  rewrite (D l H). rewrite D.
  - apply rev_involutive.
  - rewrite forallb_forall in *. intros x Hx. apply H. now apply in_rev.
Qed.

Lemma span_all_digits (l : list ascii) :
  forallb is_digit l = true -> span_digits l = (l, []).
Proof.
  induction l as [|c l IH]; [reflexivity|]. cbn. intros H.
  apply andb_prop in H. destruct H as [Hc Hl]. rewrite Hc, (IH Hl).
  reflexivity.
Qed.

Lemma digits_all_digits (l : list ascii) (acc : Z) :
  forallb is_digit l = true ->
  digits 10 l acc = Some (fold_left decimal_step l acc).
Proof.
  revert acc. induction l as [|c l IH]; intros acc H; [reflexivity|].
  cbn in H. apply andb_prop in H. destruct H as [Hc Hl]. cbn [digits fold_left].
  assert (Hd : digit_of 10 c = Some (code c - 48)).
  { unfold digit_of. unfold is_digit in Hc. rewrite Hc.
    assert (H : (code c - 48 <? 10) = true) by lia. now rewrite H. }
  rewrite Hd, (IH _ Hl). unfold decimal_step at 3. do 2 f_equal. lia.
Qed.

Lemma decimal_value_nonneg (l : list ascii) (acc : Z) :
  forallb is_digit l = true -> 0 <= acc -> 0 <= fold_left decimal_step l acc.
Proof.
  revert acc. induction l as [|c l IH]; intros acc H Ha; [exact Ha|].
  cbn in H. apply andb_prop in H. destruct H as [Hc Hl]. cbn [fold_left].
  apply IH; [exact Hl|]. unfold decimal_step. unfold is_digit in Hc. lia.
Qed.

(** [Number] of a minus sign followed by one or more decimal digits. *)
Lemma StringToNumber_minus_digits (s : string) (m : ascii) (ds : list ascii) :
  list_ascii_of_string s = m :: ds ->
  code m = 45 ->
  ds <> [] ->
  forallb is_digit ds = true ->
  StringToNumber s = signed true (inject_Z (fold_left decimal_step ds 0)).
Proof.
  intros Hs Hm Hne Hd. unfold StringToNumber. rewrite Hs.
  assert (Hclean : forallb (fun c => negb (is_ws c)) (m :: ds) = true).
  { cbn. apply andb_true_intro. split.
    - unfold is_ws. rewrite Hm. reflexivity.
    - rewrite forallb_forall in *. intros x Hx.
      apply negb_true_iff, digit_not_ws, Hd, Hx. }
  rewrite (trim_clean _ Hclean).
  assert (Hnd : non_decimal (m :: ds) = None).
  { unfold non_decimal. destruct ds; [reflexivity|]. now rewrite Hm. }
  rewrite Hnd, Hm. cbn [Z.eqb Pos.eqb].
  unfold str_decimal.
  destruct (list_eq_dec ascii_dec ds (list_ascii_of_string "Infinity"))
    as [E|_].
  { subst ds. discriminate Hd. }
  unfold unsigned_decimal. rewrite (span_all_digits _ Hd).
  rewrite app_nil_r. destruct ds as [|d ds']; [congruence|].
  rewrite (digits_all_digits _ _ Hd). cbn [exponent length Z.of_nat Z.sub].
  f_equal. apply Qred_integer.
  change (10 ^ (0 - 0))%Q with 1%Q. apply Qmult_1_r.
Qed.





Lemma Math_trunc_integer (q : Q) :
  Math_trunc (Fin q) = numZ (Qtrunc q)
  \/ (Qtrunc q = 0 /\ Math_trunc (Fin q) = NZero).
Proof.
  unfold Math_trunc. destruct (Qtrunc q =? 0) eqn:E.
  - apply Z.eqb_eq in E. rewrite E.
    destruct (Qnum q <? 0); [right | left]; auto.
  - left. reflexivity.
Qed.




(* ===================================================================== *)
(** ** [run] on bare literals *)
(* ===================================================================== *)

(** The statement-level discard: [evaluate] pops a bare literal statement
    and pushes nothing. *)
Lemma evaluate_literal_statement v l i rest n e c :
  literal_statement n ->
  evaluate (mkState (mkStk v l i (Some n) :: rest) e c)
  = Ok tt (mkState rest e c).
Proof.
  intros [Hk [x [Hx Hin]]]. unfold evaluate. ev. rewrite Hk, Hx. ev.
  cbn [In] in Hin.
  destruct Hin as [H|[H|[H|[H|[]]]]]; rewrite <- H; reflexivity.
Qed.

(** A program of bare literal statements runs to the state it started
    from: each statement is pushed, popped, and leaves nothing behind. *)
Lemma run_literal_statements (ast : AST) l e c :
  Forall literal_statement (children ast) ->
  run ast (mkState l e c) = Ok tt (mkState l e c).
Proof.
  unfold run. induction 1 as [|n ns Hn _ IH]; [reflexivity|].
  cbn [forEach]. unfold bind at 1 2. unfold push at 1. ev.
  rewrite (evaluate_literal_statement _ _ _ _ _ _ _ Hn). exact IH.
Qed.


(** Where the discipline holds inside [evaluate]: a literal node is popped
    and exactly one item, its value, is pushed. *)
Lemma evaluate_literal_node v l i rest n e c :
  In (kind n) ["boolean"; "number"; "string"] ->
  exists x,
    evaluate (mkState (mkStk v l i (Some n) :: rest) e c)
    = Ok tt (mkState (stk_val x :: rest) e c).
Proof.
  cbn [In]. intros [H|[H|[H|[]]]]; unfold evaluate; ev; rewrite <- H; ev;
    eexists; reflexivity.
Qed.


(* ===================================================================== *)
(** ** What the evaluator's own steps leave alone *)
(* ===================================================================== *)

Section OwnSteps.

Variable R : State -> State -> Prop.
Hypothesis closed : step_closed R.

Lemma keeps_ret {A} (a : A) : keeps R (ret a).
Proof. intros s. apply (closed_refl R closed). Qed.

Lemma keeps_throw {A} (err : error) : keeps R (@throw A err).
Proof. intros s. apply (closed_refl R closed). Qed.

Lemma keeps_bind {A B} (m : M A) (f : A -> M B) :
  keeps R m -> (forall a, keeps R (f a)) -> keeps R (bind m f).
Proof.
  intros Hm Hf s. unfold bind. specialize (Hm s).
  destruct (m s) as [a s1|err s1]; cbn in *; [|exact Hm].
  apply (closed_trans R closed _ s1); [exact Hm | apply Hf].
Qed.

Lemma keeps_stack_console l' ds s :
  R s (mkState l' (env s) (console s ++ ds)).
Proof. destruct s as [l e c]. apply (closed_step R closed). Qed.

Lemma keeps_push item : keeps R (push item).
Proof.
  intros s. unfold push, set_stk. cbn.
  rewrite <- (app_nil_r (console s)). apply keeps_stack_console.
Qed.

Lemma keeps_pop : keeps R pop.
Proof.
  intros s. unfold pop, set_stk.
  destruct (stk s); cbn; [apply (closed_refl R closed)|].
  rewrite <- (app_nil_r (console s)). apply keeps_stack_console.
Qed.

Lemma keeps_console_error d : keeps R (console_error d).
Proof. intros s. unfold console_error. cbn. apply keeps_stack_console. Qed.

Lemma keeps_deref {A} (o : option A) : keeps R (deref o).
Proof. destruct o; [apply keeps_ret | apply keeps_throw]. Qed.

Lemma keeps_emit ds : keeps R (emit ds).
Proof.
  induction ds as [|d ds IH]; cbn [emit]; [apply keeps_ret|].
  apply keeps_bind; [apply keeps_console_error | intros _; exact IH].
Qed.

Lemma keeps_forEach {A} (xs : list A) (f : A -> M unit) :
  (forall x, keeps R (f x)) -> keeps R (forEach xs f).
Proof.
  intros Hf. induction xs as [|x xs IH]; cbn [forEach]; [apply keeps_ret|].
  apply keeps_bind; [apply Hf | intros _; exact IH].
Qed.

Ltac keeps_step :=
  first
    [ assumption
    | apply keeps_ret | apply keeps_throw | apply keeps_push | apply keeps_pop
    | apply keeps_console_error | apply keeps_deref | apply keeps_emit
    | apply keeps_bind; [|intros ?]
    | match goal with
      | |- keeps _ (if ?b then _ else _) => destruct b
      | |- keeps _ (match ?x with _ => _ end) => destruct x
      | |- keeps _ (fun s => match vstoreVal _ _ _ with _ => _ end) =>
          let s := fresh "s" in
          intros s; cbn; destruct (vstoreVal _ _ _); cbn;
          apply (closed_refl R closed)
      end ].

Hypothesis keeps_assign : keeps R evaluateAssign.
Hypothesis keeps_variable : keeps R evaluateVariable.
Hypothesis keeps_array : keeps R evaluateArray.
Hypothesis keeps_global : keeps R evaluateGlobal.

Lemma keeps_evaluate : keeps R evaluate.
Proof. unfold evaluate. repeat keeps_step. Qed.

Lemma keeps_locate n d k : keeps R (locate n d k).
Proof. unfold locate, when. repeat keeps_step. Qed.

Lemma keeps_evaluateOffset : keeps R evaluateOffset.
Proof.
  pose proof keeps_evaluate as He. pose proof keeps_locate as Hl.
  unfold evaluateOffset, evaluateOffset_READ, evaluateOffset_WRITE, when.
  repeat (apply Hl || keeps_step).
Qed.

Lemma keeps_run ast : keeps R (run ast).
Proof.
  unfold run. apply keeps_forEach. intros child.
  apply keeps_bind; [apply keeps_push | intros _; apply keeps_evaluate].
Qed.

End OwnSteps.

(** X1: the steps [evaluate], [evaluateOffset] and [run] take themselves
    only move stack items and print.  Any relation between states that is
    reflexive, transitive and unaffected by the stack and by diagnostics
    appended to the console, and that the four sub-evaluators keep between
    the state they start in and the state they end in, is kept by the three
    functions too, whether they return or throw. *)
Theorem own_steps_move_items_and_print (R : State -> State -> Prop) :
  step_closed R ->
  keeps R evaluateAssign ->
  keeps R evaluateVariable ->
  keeps R evaluateArray ->
  keeps R evaluateGlobal ->
  keeps R evaluate /\ keeps R evaluateOffset /\ forall ast, keeps R (run ast).
Proof.
  intros HR Ha Hv Hr Hg. split; [|split].
  - apply keeps_evaluate; assumption.
  - apply keeps_evaluateOffset; assumption.
  - intros ast. apply keeps_run; assumption.
Qed.


(* ===================================================================== *)
(** ** What [evaluate] passes on, and how [run] composes *)
(* ===================================================================== *)

(** [evaluate] reads nothing of the item it pops but its node: the
    value, the location and the intent tag of the item have no effect on
    what follows, and a sub-evaluator is started on a new item that carries
    the node alone.  So the base of a subscript is resolved in the same way
    under READ and under WRITE, and a base that is a variable is handed to
    [evaluateVariable] without intent. *)
Theorem evaluate_reads_only_the_node v l i v' l' i' n rest e c :
  evaluate (mkState (mkStk v l i n :: rest) e c)
  = evaluate (mkState (mkStk v' l' i' n :: rest) e c)
  /\ (forall x,
        evaluate (mkState (operands x "READ" rest) e c)
        = evaluate (mkState (operands x "WRITE" rest) e c))
  /\ (forall x,
        n = Some x ->
        kind x = "variable" ->
        evaluate (mkState (mkStk v l i n :: rest) e c)
        = evaluateVariable (mkState (stk_node (Some x) None :: rest) e c)).
Proof.
  split; [reflexivity | split].
  - intros x. reflexivity.
  - intros x -> Hk. unfold evaluate. ev. rewrite Hk. reflexivity.
Qed.

Lemma forEach_app {A} (xs ys : list A) (f : A -> M unit) s :
  forEach (xs ++ ys) f s = (forEach xs f ;; forEach ys f) s.
Proof.
  revert s. induction xs as [|x xs IH]; intros s; [reflexivity|].
  cbn [app forEach]. unfold bind in *.
  destruct (f x s) as [[] s1|err s1]; [apply IH | reflexivity].
Qed.

Lemma run_app xs ys s :
  run (mkAST (xs ++ ys)) s
  = (run (mkAST xs) ;; run (mkAST ys)) s.
Proof. unfold run. cbn [children]. apply forEach_app. Qed.

(** X2: [run] is sequential.  Running a program is running a first part
    and then, from the state it leaves, the rest; and when the statement
    that follows a part that ran to the end throws, the run stops there
    with that error, in the state of the throw: what the earlier statements
    did stays, the later statements are not evaluated. *)
Theorem run_in_sequence xs n ys s s1 :
  run (mkAST xs) s = Ok tt s1 ->
  run (mkAST (xs ++ ys)) s = run (mkAST ys) s1
  /\ (forall err s2,
        evaluate (set_stk s1 (mkStk VUndefined None None (Some n) :: stk s1))
        = Throw err s2 ->
        run (mkAST (xs ++ n :: ys)) s = Throw err s2).
Proof.
  intros Hx. split.
  - rewrite run_app. unfold bind. rewrite Hx. reflexivity.
  - intros err s2 Hn. rewrite run_app. unfold bind at 1. rewrite Hx.
    unfold run. cbn [children forEach]. unfold bind at 1 2, push at 1.
    rewrite Hn. reflexivity.
Qed.

(** X3: the work items [evaluateOffset] refuses before it evaluates
    anything.  An item without node is a host [TypeError]; a node that is
    not an [offsetlookup] is the error "Evaluate wrong AST node"; with a
    subscript present, an intent tag that is neither READ nor WRITE is the
    error "... instruction in offset Node", which names the tag and reads
    "undefined" when the tag is absent.  In each case the item has been
    popped and nothing else has changed. *)
Theorem evaluateOffset_refuses v l i rest e c :
  evaluateOffset (mkState (mkStk v l i None :: rest) e c)
  = Throw TypeError (mkState rest e c)
  /\ (forall n,
        kind n <> "offsetlookup" ->
        evaluateOffset (mkState (mkStk v l i (Some n) :: rest) e c)
        = Throw (Error ("Eval Error: Evaluate wrong AST node: " ++ kind n
                        ++ ", should be offsetlookup"))
                (mkState rest e c))
  /\ (forall n o,
        kind n = "offsetlookup" ->
        offset n = Some o ->
        i <> Some "READ" ->
        i <> Some "WRITE" ->
        evaluateOffset (mkState (mkStk v l i (Some n) :: rest) e c)
        = Throw (Error ("Eval error: " ++ show i
                        ++ " instruction in offset Node"))
                (mkState rest e c)).
Proof.
  split; [reflexivity | split].
  - intros n Hk. unfold evaluateOffset. ev.
    rewrite (eqb_of_neq _ _ Hk). reflexivity.
  - intros n o Hk Ho Hr Hw. unfold evaluateOffset. ev. rewrite Hk, Ho. ev.
    assert (HR : inst_is (mkStk v l i (Some n)) "READ" = false).
    { unfold inst_is. cbn. destruct i as [j|]; [|reflexivity].
      apply eqb_of_neq. congruence. }
    assert (HW : inst_is (mkStk v l i (Some n)) "WRITE" = false).
    { unfold inst_is. cbn. destruct i as [j|]; [|reflexivity].
      apply eqb_of_neq. congruence. }
    rewrite HW, HR. reflexivity.
Qed.


(* ===================================================================== *)
(** ** READ on an array, by-reference strings, unsupported bases *)
(* ===================================================================== *)


(** X5: a string taken by reference cannot be subscripted.  Under READ, a
    base that evaluates to a string while its node is marked by-reference
    makes [evaluateOffset] throw "Cannot create references to/from string
    offsets" once the key has been evaluated and normalised; under WRITE,
    the same error is thrown for a by-reference base whose location is
    tagged with a string, before the slot is read.  Nothing is pushed. *)
Theorem string_offset_by_reference
    v l rest n w o d k rest1 rest2 e e1 e2 c c1 c2 :
  kind n = "offsetlookup" ->
  what n = Some w ->
  byref w = true ->
  offset n = Some o ->
  evaluate (mkState rest1 e1 c1) = Ok tt (mkState (k :: rest2) e2 c2) ->
  (forall str,
     evaluate (mkState (stk_node (Some w) (Some "READ")
                        :: stk_node (Some o) (Some "READ") :: rest) e c)
     = Ok tt (mkState (d :: rest1) e1 c1) ->
     val d = VStr str ->
     evaluateOffset (mkState (mkStk v l (Some "READ") (Some n) :: rest) e c)
     = Throw (Error msg_string_ref)
             (mkState rest2 e2 (c2 ++ fst (normalizeRead (val k)))))
  /\ (forall lc,
        evaluate (mkState (operands n "WRITE" rest) e c)
        = Ok tt (mkState (d :: rest1) e1 c1) ->
        loc d = Some lc ->
        typeof (Location.type lc) = "string" ->
        evaluateOffset
          (mkState (mkStk v l (Some "WRITE") (Some n) :: rest) e c)
        = Throw (Error msg_string_ref)
                (mkState rest2 e2 (c2 ++ fst (normalizeWrite o (val k))))).
Proof.
  intros Hk Hw Hb Ho He2. split.
  - intros str He Hd. rewrite <- Hw in He.
    rewrite (read_after_base v l rest n o d rest1 e e1 c c1 Hk Ho He).
    rewrite Hd. ev. sub He2.
    destruct (normalizeRead (val k)) as [ws nk]. ev.
    rewrite (bind_Ok _ _ _ _ _ (emit_run ws _ _ _)).
    rewrite Hw. ev. rewrite Hb. reflexivity.
  - intros lc He Hl Ht.
    rewrite (write_after_base v l rest n d rest1 e e1 c c1 Hk He), Ho.
    rewrite (write_key o k rest2 e1 e2 c1 c2 rest1 _ He2).
    unfold locate. rewrite Hl. ev. rewrite Ht, Hw. ev. rewrite Hb.
    reflexivity.
Qed.

(** X6: bases the subscript does not support.  Under READ, a base that
    evaluates to a host value other than [undefined], [null], a boolean, a
    number, a string, an [IArray] or an [IObject] throws "undefined
    dereferencable-expression type in reading offset" after the key has
    been evaluated.  Under WRITE, a base whose location has a [type] that
    is not a boolean, a number or a string (a missing one, for instance)
    throws "undefined type dereferencable-expression in writing offset". *)
Theorem unsupported_base
    v l rest n w o d k rest1 rest2 e e1 e2 c c1 c2 :
  kind n = "offsetlookup" ->
  what n = Some w ->
  offset n = Some o ->
  evaluate (mkState rest1 e1 c1) = Ok tt (mkState (k :: rest2) e2 c2) ->
  (evaluate (mkState (stk_node (Some w) (Some "READ")
                      :: stk_node (Some o) (Some "READ") :: rest) e c)
   = Ok tt (mkState (d :: rest1) e1 c1) ->
   val d = VOther ->
   evaluateOffset (mkState (mkStk v l (Some "READ") (Some n) :: rest) e c)
   = Throw (Error msg_read_type)
           (mkState rest2 e2 (c2 ++ fst (normalizeRead (val k)))))
  /\ (forall lc,
        evaluate (mkState (operands n "WRITE" rest) e c)
        = Ok tt (mkState (d :: rest1) e1 c1) ->
        loc d = Some lc ->
        typeof (Location.type lc) <> "boolean" ->
        typeof (Location.type lc) <> "number" ->
        typeof (Location.type lc) <> "string" ->
        evaluateOffset
          (mkState (mkStk v l (Some "WRITE") (Some n) :: rest) e c)
        = Throw (Error msg_write_type)
                (mkState rest2 e2 (c2 ++ fst (normalizeWrite o (val k))))).
Proof.
  intros Hk Hw Ho He2. split.
  - intros He Hd. rewrite <- Hw in He.
    rewrite (read_after_base v l rest n o d rest1 e e1 c c1 Hk Ho He).
    rewrite Hd. ev. sub He2.
    destruct (normalizeRead (val k)) as [ws nk]. ev.
    rewrite (bind_Ok _ _ _ _ _ (emit_run ws _ _ _)). reflexivity.
  - intros lc He Hl Hb Hn Hs.
    rewrite (write_after_base v l rest n d rest1 e e1 c c1 Hk He), Ho.
    rewrite (write_key o k rest2 e1 e2 c1 c2 rest1 _ He2).
    unfold locate. rewrite Hl. ev.
    rewrite (eqb_of_neq _ _ Hb), (eqb_of_neq _ _ Hn), (eqb_of_neq _ _ Hs).
    ev. destruct (Location.type lc); cbn in *; try congruence; reflexivity.
Qed.

(** X7: a literal cannot be the base of a WRITE.  When the base node is a
    [boolean], [number] or [string] literal, [evaluate] resolves it to a
    value and the item carries no location; [evaluateOffset] then fails in
    the host with a [TypeError] on reading the type of the location, after
    the key, if there is one, has been evaluated. *)
Theorem write_offset_on_literal_base v l rest n w e c :
  kind n = "offsetlookup" ->
  what n = Some w ->
  In (kind w) ["boolean"; "number"; "string"] ->
  match offset n with
  | None =>
      evaluateOffset (mkState (mkStk v l (Some "WRITE") (Some n) :: rest) e c)
      = Throw TypeError (mkState rest e c)
  | Some o =>
      forall k rest2 e2 c2,
        evaluate (mkState (stk_node (Some o) (Some "READ") :: rest) e c)
        = Ok tt (mkState (k :: rest2) e2 c2) ->
        evaluateOffset
          (mkState (mkStk v l (Some "WRITE") (Some n) :: rest) e c)
        = Throw TypeError
                (mkState rest2 e2 (c2 ++ fst (normalizeWrite o (val k))))
  end.
Proof.
  intros Hk Hw Hin.
  destruct (evaluate_literal_node VUndefined None (Some "WRITE")
              (match offset n with
               | Some o => stk_node (Some o) (Some "READ") :: rest
               | None => rest
               end) w e c Hin) as [x Hx].
  assert (He : evaluate (mkState (operands n "WRITE" rest) e c)
               = Ok tt (mkState (stk_val x
                                 :: match offset n with
                                    | Some o =>
                                        stk_node (Some o) (Some "READ") :: rest
                                    | None => rest
                                    end) e c)).
  { unfold operands. rewrite Hw. exact Hx. }
  rewrite (write_after_base v l rest n _ _ e e c c Hk He).
  destruct (offset n) as [o|].
  - intros k rest2 e2 c2 He2.
    rewrite (write_key o k rest2 e e2 c c2 _ _ He2). reflexivity.
  - reflexivity.
Qed.


(* ===================================================================== *)
(** ** WRITE on a string *)
(* ===================================================================== *)




(* ===================================================================== *)
(** ** The keys the normaliser leaves *)
(* ===================================================================== *)

Lemma Math_trunc_numZ (z : Z) : Math_trunc (numZ z) = numZ z.
Proof.
  unfold Math_trunc, numZ, Qtrunc, inject_Z. cbn [Qnum Qden].
  rewrite Z.quot_1_r. destruct (z =? 0) eqn:E; [|reflexivity].
  apply Z.eqb_eq in E. subst z. reflexivity.
Qed.

Lemma Math_trunc_integral (x : number) : integral (Math_trunc x).
Proof.
  destruct x as [| | | |q]; cbn [Math_trunc integral]; try exact I.
  destruct (Math_trunc_integer q) as [H | [_ H]]; unfold Math_trunc in H;
    rewrite H; cbn; eauto.
Qed.

Lemma Math_trunc_fixes_integral (x : number) :
  integral x -> Math_trunc x = x.
Proof.
  destruct x as [| | | |q]; try reflexivity.
  intros [z ->]. apply Math_trunc_numZ.
Qed.

(** What a string that matches [validDecInt] converts to. *)
Lemma validDecInt_integral (s : string) :
  validDecInt s = true -> integral (StringToNumber s).
Proof.
  unfold validDecInt.
  destruct (list_ascii_of_string s) as [|m [|d t]] eqn:Hs.
  - intros _. unfold StringToNumber. rewrite Hs. cbn. eauto.
  - intros Hz. apply Z.eqb_eq in Hz.
    assert (m = "0"%char) by (apply code_inj; exact Hz). subst m.
    unfold StringToNumber. rewrite Hs. cbn. exists 0. reflexivity.
  - destruct (code m =? 45) eqn:Hm; [|discriminate].
    apply Z.eqb_eq in Hm. intros Hv.
    assert (Hd : forallb is_digit (d :: t) = true).
    { cbn [forallb]. destruct t as [|t0 t'].
      - cbn. rewrite andb_true_r. unfold is_digit, is_1_9 in *. lia.
      - apply andb_prop in Hv. destruct Hv as [H1 H2].
        rewrite H2, andb_true_r. unfold is_digit, is_1_9 in *. lia. }
    rewrite (StringToNumber_minus_digits s m (d :: t) Hs Hm
               ltac:(discriminate) Hd).
    unfold signed. destruct (Qeq_bool _ 0); [exact I|].
    cbn [integral]. exists (- fold_left decimal_step (d :: t) 0).
    apply Qred_integer. rewrite inject_Z_opp. reflexivity.
Qed.

Lemma normalizeRead_canonical (v : jsval) :
  canonical_key (snd (normalizeRead v)).
Proof.
  destruct v as [| |b|x|s|elt| |]; cbn;
    try (exists 0; reflexivity); try exact I.
  - destruct b; cbn; [exists 1 | exists 0]; reflexivity.
  - apply Math_trunc_integral.
  - destruct (validDecInt s) eqn:Hs; cbn; [|exact Hs].
    apply validDecInt_integral, Hs.
Qed.

Lemma normalizeRead_fixes_canonical (k : key) :
  canonical_key k -> normalizeRead (val_of_key k) = ([], k).
Proof.
  destruct k as [|x|s]; cbn [canonical_key val_of_key]; intros H.
  - reflexivity.
  - unfold normalizeRead. cbn. rewrite (Math_trunc_fixes_integral x H).
    reflexivity.
  - unfold normalizeRead. cbn. rewrite H. reflexivity.
Qed.

(** X9: normalising a key twice is normalising it once.  In READ mode the
    normaliser, applied to a key it has produced, prints nothing and
    returns that key; in WRITE mode the same holds for every key other than
    [undefined], whose replacement, the empty string, is turned into the
    integer 0 by a second pass. *)
Theorem normaliser_idempotent :
  (forall v,
     normalizeRead (val_of_key (snd (normalizeRead v)))
     = ([], snd (normalizeRead v)))
  /\ (forall o v,
        v <> VUndefined ->
        normalizeWrite o (val_of_key (snd (normalizeWrite o v)))
        = ([], snd (normalizeWrite o v)))
  /\ (forall o,
        snd (normalizeWrite o VUndefined) = KStr EmptyString
        /\ normalizeWrite o (val_of_key (snd (normalizeWrite o VUndefined)))
           = ([], KNum (numZ 0))).
Proof.
  assert (HW : forall o v, v <> VUndefined ->
                           normalizeWrite o v = normalizeRead v).
  { intros o v Hv. destruct v; try reflexivity. congruence. }
  split; [|split].
  - intros v. apply normalizeRead_fixes_canonical, normalizeRead_canonical.
  - intros o v Hv. rewrite (HW o v Hv).
    pose proof (normalizeRead_canonical v) as Hc.
    pose proof (normalizeRead_fixes_canonical _ Hc) as Hf.
    destruct (snd (normalizeRead v)) as [|x|s] eqn:Hk.
    + destruct v as [| |b|x|s|elt| |]; cbn in Hk; try discriminate;
        try congruence.
      destruct (validDecInt s); discriminate.
    + rewrite HW by discriminate. exact Hf.
    + rewrite HW by discriminate. exact Hf.
  - intros o. split; reflexivity.
Qed.

(** X10: the keys the normaliser leaves are the canonical ones, and only
    they are left unchanged by it: [undefined], a number without fractional
    part (an integer, the negative zero, NaN or an infinity), or a string
    that does not match the pattern.  In READ mode, and in WRITE mode for
    every key other than [undefined], no key with a fractional part and no
    string that matches the pattern is used to index; the one exception is
    the empty string that WRITE substitutes for an [undefined] key. *)
Theorem normalised_keys_are_canonical :
  (forall v, canonical_key (snd (normalizeRead v)))
  /\ (forall o v, v <> VUndefined -> canonical_key (snd (normalizeWrite o v)))
  /\ (forall o, ~ canonical_key (snd (normalizeWrite o VUndefined)))
  /\ (forall k,
        canonical_key k <-> normalizeRead (val_of_key k) = ([], k)).
Proof.
  split; [exact normalizeRead_canonical | split; [|split]].
  - intros o v Hv.
    replace (normalizeWrite o v) with (normalizeRead v)
      by (destruct v; try reflexivity; congruence).
    apply normalizeRead_canonical.
  - intros o. cbn. discriminate.
  - intros k. split; [apply normalizeRead_fixes_canonical|].
    intros H.
    assert (Hk : snd (normalizeRead (val_of_key k)) = k)
      by (rewrite H; reflexivity).
    rewrite <- Hk. apply normalizeRead_canonical.
Qed.

(** X11: which strings the normaliser converts.  A string that matches
    the pattern is empty, is ["0"], or begins with a minus sign; so a
    string key that begins with anything else, such as ["5"], ["10"] or
    ["+1"], stays a string key in both modes, and it is not the key that
    the number of the same spelling normalises to. *)
Theorem unsigned_strings_stay_strings (s : string) :
  (validDecInt s = true ->
   s = EmptyString \/ s = "0"
   \/ exists t, s = String "-" t)
  /\ (forall c t o,
        s = String c t ->
        c <> "-"%char ->
        s <> "0" ->
        normalizeRead (VStr s) = ([], KStr s)
        /\ normalizeWrite o (VStr s) = ([], KStr s)
        /\ forall x, same_value_zero (VStr s) (VNum x) = false).
Proof.
  assert (H1 : validDecInt s = true ->
               s = EmptyString \/ s = "0" \/ exists t, s = String "-" t).
  { destruct s as [|c [|d t]]; [auto | |].
    - unfold validDecInt. cbn. intros H. apply Z.eqb_eq in H.
      right. left. f_equal. apply code_inj. exact H.
    - unfold validDecInt. cbn [list_ascii_of_string].
      destruct (code c =? 45) eqn:Hc; [|discriminate].
      intros _. right. right. exists (String d t). f_equal.
      apply code_inj. apply Z.eqb_eq in Hc. exact Hc. }
  split; [exact H1|].
  intros c t o Hs Hc H0.
  assert (Hv : validDecInt s = false).
  { destruct (validDecInt s) eqn:E; [|reflexivity].
    destruct (H1 eq_refl) as [H|[H|[u H]]]; subst s; congruence. }
  repeat split.
  - unfold normalizeRead. cbn. rewrite Hv. reflexivity.
  - unfold normalizeWrite. cbn. rewrite Hv. reflexivity.
Qed.


(* ===================================================================== *)
(** ** Number literals written with digits only *)
(* ===================================================================== *)




(* ===================================================================== *)
(** ** What a WRITE leaves on the stack *)
(* ===================================================================== *)







(* ===================================================================== *)
(** ** Bare literal statements in a program; READ on a string, any key *)
(* ===================================================================== *)

(** X14: bare literal statements do nothing wherever they stand.  Statements
    whose expression is an [array], [number], [string] or [boolean] node can
    be inserted in a program, or removed from it, without changing the
    outcome of [run]: the same result, stack, environment and console. *)
Theorem literal_statements_are_skipped xs lits ys s :
  Forall literal_statement lits ->
  run (mkAST (xs ++ lits ++ ys)) s = run (mkAST (xs ++ ys)) s.
Proof.
  intros Hl. rewrite (run_app xs (lits ++ ys)), (run_app xs ys).
  unfold bind.
  destruct (run (mkAST xs) s) as [[] s1|err s1]; [|reflexivity].
  rewrite (run_app lits ys). unfold bind. destruct s1 as [l e c].
  rewrite (run_literal_statements (mkAST lits) l e c Hl). reflexivity.
Qed.

(** X15: READ intent on a string base that is not taken by reference never
    fails on account of the key.  Whatever the key evaluates to,
    [evaluateOffset] returns normally and pushes either one character of
    the string or [undefined]; the notice "Uninitialized string offset" is
    printed exactly when it pushes [undefined]. *)
Theorem read_string_offset_any_key
    v l rest n w o d str k rest1 rest2 e e1 e2 c c1 c2 :
  kind n = "offsetlookup" ->
  what n = Some w ->
  byref w = false ->
  offset n = Some o ->
  evaluate (mkState (stk_node (Some w) (Some "READ")
                     :: stk_node (Some o) (Some "READ") :: rest) e c)
  = Ok tt (mkState (d :: rest1) e1 c1) ->
  val d = VStr str ->
  evaluate (mkState rest1 e1 c1) = Ok tt (mkState (k :: rest2) e2 c2) ->
  (exists i ch,
     String.get i str = Some ch
     /\ evaluateOffset (mkState (mkStk v l (Some "READ") (Some n) :: rest) e c)
        = Ok tt (mkState (stk_val (VStr (String ch EmptyString)) :: rest2) e2
                   (c2 ++ fst (normalizeRead (val k)))))
  \/ (exists at_,
        evaluateOffset
          (mkState (mkStk v l (Some "READ") (Some n) :: rest) e c)
        = Ok tt (mkState (stk_val VUndefined :: rest2) e2
                   ((c2 ++ fst (normalizeRead (val k)))
                    ++ [uninitialized at_]))).
Proof.
  intros Hk Hw Hb Ho He Hd He2.
  rewrite (read_string_base v l rest n w o d str k rest1 rest2 e e1 e2 c c1 c2
             Hk Hw Hb Ho He Hd He2).
  set (at_ := string_offset str (snd (normalizeRead (val k)))).
  assert (Hc : str_at str at_ = VUndefined
               \/ exists i ch, String.get i str = Some ch
                               /\ str_at str at_
                                  = VStr (String ch EmptyString)).
  { unfold str_at. destruct at_ as [|x|t]; [left; reflexivity | | left;
      reflexivity].
    unfold char_at. destruct (num_index x) as [i|]; [|left; reflexivity].
    destruct (String.get i str) as [ch|] eqn:Hg; [|left; reflexivity].
    right. exists i, ch. split; [exact Hg | reflexivity]. }
  destruct Hc as [Hu | [i [ch [Hg Hs]]]].
  - right. exists at_. rewrite Hu. reflexivity.
  - left. exists i, ch. split; [exact Hg|]. rewrite Hs. cbn [strict_eq].
    now rewrite app_nil_r.
Qed.

End Evaluator.

(* ===================================================================== *)
(** ** Concrete runs *)
(* ===================================================================== *)

(** [$a[0]] read when [$a] is unresolved, when it holds [null], and [1[0]]
    with a literal base. *)
Lemma read_offset_of_missing_or_scalar_base_witness :
  evaluateOffset unavailable (resolveTo stk_empty) unavailable unavailable
    noStore
    (pending (offsetlookup (variable "a") (Some (number_lit "0"))) "READ")
  = Ok tt (mkState [stk_val VNull;
                    stk_node (Some (number_lit "0")) (Some "READ")]
             Environment.new [Say "Notice: Undefined variable a"])
  /\ evaluateOffset unavailable (resolveTo (stk_val VNull)) unavailable
       unavailable noStore
       (pending (offsetlookup (variable "a") (Some (number_lit "0"))) "READ")
     = Ok tt (mkState [stk_val VNull;
                       stk_node (Some (number_lit "0")) (Some "READ")]
                Environment.new [])
  /\ evaluateOffset unavailable unavailable unavailable unavailable noStore
       (pending (offsetlookup (number_lit "1") (Some (number_lit "0"))) "READ")
     = Ok tt (mkState [stk_val VNull] Environment.new []).
Proof.
  split; [|split].
  - apply (proj1 (read_offset_of_missing_or_scalar_base
             unavailable (resolveTo stk_empty) unavailable unavailable noStore
             VUndefined None []
             (offsetlookup (variable "a") (Some (number_lit "0")))
             (variable "a") (number_lit "0")
             stk_empty [stk_node (Some (number_lit "0")) (Some "READ")]
             Environment.new Environment.new [] []
             eq_refl eq_refl eq_refl eq_refl)).
    reflexivity.
  - apply (proj1 (proj2 (read_offset_of_missing_or_scalar_base
             unavailable (resolveTo (stk_val VNull)) unavailable unavailable
             noStore
             VUndefined None []
             (offsetlookup (variable "a") (Some (number_lit "0")))
             (variable "a") (number_lit "0")
             (stk_val VNull) [stk_node (Some (number_lit "0")) (Some "READ")]
             Environment.new Environment.new [] []
             eq_refl eq_refl eq_refl eq_refl))).
    reflexivity.
  - apply (proj2 (proj2 (read_offset_of_missing_or_scalar_base
             unavailable unavailable unavailable unavailable noStore
             VUndefined None []
             (offsetlookup (number_lit "1") (Some (number_lit "0")))
             (number_lit "1") (number_lit "0")
             (stk_val (VNum (numZ 1)))
             [stk_node (Some (number_lit "0")) (Some "READ")]
             Environment.new Environment.new [] []
             eq_refl eq_refl eq_refl eq_refl))
           (or_intror eq_refl) (stk_val (VNum (numZ 0))) [] Environment.new []).
    reflexivity.
Defined.

(** [$a[0]] located for writing when [$a] resolves to a location whose
    [type] is itself a number: the scalar arm. *)
Example write_offset_scalar_arm_run :
  evaluateOffset unavailable
    (resolveTo (stk_loc (Some (Location.mk (VNum (numZ 1)) 0 0 KUndefined))))
    unavailable unavailable noStore
    (pending (offsetlookup (variable "a") (Some (number_lit "0"))) "WRITE")
  = Ok tt (mkState [stk_loc None] Environment.new [scalar_warning]).
Proof. reflexivity. Qed.

(** [$a[0]] located for writing after [$a = 1]: [$a] resolves to a
    location tagged ["number"] and its slot holds 1. *)
Lemma write_offset_on_scalar_value_witness :
  evaluateOffset unavailable
    (resolveTo (stk_loc (Some (Location.mk (VStr "number") 0 0 KUndefined))))
    unavailable unavailable (storeOf (VNum (numZ 1)))
    (pending (offsetlookup (variable "a") (Some (number_lit "0"))) "WRITE")
  = Throw (Error "Eval Error: wrong type in writing string offset")
          (mkState [] Environment.new []).
Proof.
  apply (write_offset_on_scalar_value unavailable
           (resolveTo (stk_loc (Some (Location.mk (VStr "number") 0 0
                                                  KUndefined))))
           unavailable unavailable (storeOf (VNum (numZ 1)))
           VUndefined None []
           (offsetlookup (variable "a") (Some (number_lit "0")))
           (variable "a")
           (stk_loc (Some (Location.mk (VStr "number") 0 0 KUndefined)))
           (Location.mk (VStr "number") 0 0 KUndefined)
           (VNum (numZ 1))
           [stk_node (Some (number_lit "0")) (Some "READ")]
           Environment.new Environment.new [] []
           eq_refl eq_refl eq_refl eq_refl eq_refl (or_intror eq_refl)
           (stk_val (VNum (numZ 0))) [] Environment.new [] eq_refl eq_refl).
Defined.

(** [$b[1]] located for writing when [$b] resolves to a location typed
    ["array"] whose slot holds an empty array. *)
Lemma write_offset_on_array_location_witness :
  evaluateOffset unavailable
    (resolveTo (stk_loc (Some (Location.mk (VStr "array") 0 0 KUndefined))))
    unavailable unavailable (storeOf (VIArray []))
    (pending (offsetlookup (variable "b") (Some (number_lit "1"))) "WRITE")
  = Throw (Error "Eval Error: wrong type in writing string offset")
          (mkState [] Environment.new []).
Proof.
  apply (write_offset_on_array_location unavailable
           (resolveTo (stk_loc (Some (Location.mk (VStr "array") 0 0
                                                  KUndefined))))
           unavailable unavailable (storeOf (VIArray []))
           VUndefined None []
           (offsetlookup (variable "b") (Some (number_lit "1")))
           (variable "b") (number_lit "1")
           (stk_loc (Some (Location.mk (VStr "array") 0 0 KUndefined)))
           (Location.mk (VStr "array") 0 0 KUndefined)
           [] (stk_val (VNum (numZ 1)))
           [stk_node (Some (number_lit "1")) (Some "READ")] []
           Environment.new Environment.new Environment.new [] [] []
           eq_refl eq_refl eq_refl eq_refl eq_refl eq_refl eq_refl eq_refl).
Defined.

(** [$a[0]] read when [$a] holds [null]: one item popped, two left; and
    when [$a] holds an object: nothing left. *)
Lemma read_offset_breaks_stack_discipline_witness :
  (exists c2,
     evaluateOffset unavailable (resolveTo (stk_val VNull)) unavailable
       unavailable noStore
       (pending (offsetlookup (variable "a") (Some (number_lit "0"))) "READ")
     = Ok tt (mkState [stk_val VNull;
                       stk_node (Some (number_lit "0")) (Some "READ")]
                Environment.new c2)
     /\ length [stk_val VNull; stk_node (Some (number_lit "0")) (Some "READ")]
        = 2%nat)
  /\ (exists c3,
        evaluateOffset unavailable (resolveTo (stk_val VIObject)) unavailable
          unavailable noStore
          (pending (offsetlookup (variable "a") (Some (number_lit "0")))
                   "READ")
        = Ok tt (mkState [] Environment.new c3)).
Proof.
  split.
  - apply (proj1 (read_offset_breaks_stack_discipline unavailable
             (resolveTo (stk_val VNull)) unavailable unavailable noStore
             VUndefined None []
             (offsetlookup (variable "a") (Some (number_lit "0")))
             (number_lit "0") (stk_val VNull)
             Environment.new Environment.new [] []
             eq_refl eq_refl eq_refl)).
    right. reflexivity.
  - apply (proj2 (read_offset_breaks_stack_discipline unavailable
             (resolveTo (stk_val VIObject)) unavailable unavailable noStore
             VUndefined None []
             (offsetlookup (variable "a") (Some (number_lit "0")))
             (number_lit "0") (stk_val VIObject)
             Environment.new Environment.new [] []
             eq_refl eq_refl eq_refl)
           eq_refl (stk_val (VNum (numZ 0))) Environment.new [] eq_refl).
Defined.

(** The statement [foo();] wrapped in an [expressionstatement], and the
    bare call node. *)
Lemma unknown_kind_witness :
  evaluate unavailable unavailable unavailable unavailable
    (mkState [stk_node (Some (call "foo")) None] Environment.new [])
  = Throw (Error "Eval Error: Unknown expression type: call")
          (mkState [] Environment.new [])
  /\ run unavailable unavailable unavailable unavailable
       (mkAST [call "foo"; expressionstatement (number_lit "1")])
       (mkState [] Environment.new [])
     = Throw (Error "Eval Error: Unknown expression type: call")
             (mkState [] Environment.new [])
  /\ evaluate unavailable unavailable unavailable unavailable
       (mkState [stk_node (Some (expressionstatement (call "foo"))) None]
                Environment.new [])
     = Ok tt (mkState [] Environment.new []).
Proof.
  assert (Hc : ~ In (kind (call "foo")) dispatched)
    by (cbn; intuition discriminate).
  split; [|split].
  - apply (proj1 (unknown_kind unavailable unavailable unavailable unavailable
                    VUndefined None None [] (call "foo") Environment.new [])).
    exact Hc.
  - apply (proj1 (proj2 (unknown_kind unavailable unavailable unavailable
                           unavailable VUndefined None None [] (call "foo")
                           Environment.new []))).
    exact Hc.
  - apply (proj2 (proj2 (unknown_kind unavailable unavailable unavailable
                           unavailable VUndefined None None []
                           (expressionstatement (call "foo"))
                           Environment.new []))
             (call "foo") eq_refl eq_refl);
      discriminate.
Defined.

(** Counterexample to C5 as stated: the statement [foo();], whose
    expression has a kind the dispatcher does not know, is evaluated without
    any error, and the run of a program made of it completes. *)
Lemma unknown_kind_in_statement_is_dropped :
  ~ In (kind (call "foo")) dispatched
  /\ evaluate unavailable unavailable unavailable unavailable
       (mkState [stk_node (Some (expressionstatement (call "foo"))) None]
                Environment.new [])
     = Ok tt (mkState [] Environment.new [])
  /\ (forall err s,
        evaluate unavailable unavailable unavailable unavailable
          (mkState [stk_node (Some (expressionstatement (call "foo"))) None]
                   Environment.new [])
        <> Throw err s)
  /\ run unavailable unavailable unavailable unavailable
       (mkAST [expressionstatement (call "foo")])
       (mkState [] Environment.new [])
     = Ok tt (mkState [] Environment.new []).
Proof.
  repeat split; try reflexivity.
  - cbn. intuition discriminate.
  - intros err s. discriminate.
Qed.

(** [$a[]] under READ and under no intent, and under WRITE when [$a]
    resolves to a location tagged ["string"] whose slot holds ["abc"]. *)
Lemma empty_subscript_witness :
  evaluateOffset unavailable unavailable unavailable unavailable noStore
    (pending (offsetlookup (variable "a") None) "READ")
  = Throw (Error "Fatal error:  Cannot use [] for reading.")
          (mkState [] Environment.new [])
  /\ evaluateOffset unavailable unavailable unavailable unavailable noStore
       (mkState [stk_node (Some (offsetlookup (variable "a") None)) None]
                Environment.new [])
     = Throw (Error "Fatal error:  Cannot use [] for reading.")
             (mkState [] Environment.new [])
  /\ evaluateOffset unavailable
       (resolveTo (stk_loc (Some (Location.mk (VStr "string") 0 0
                                              KUndefined))))
       unavailable unavailable (storeOf (VStr "abc"))
       (pending (offsetlookup (variable "a") None) "WRITE")
     = Ok tt (mkState [stk_loc (Some (Location.mk (VStr "string") 0 0
                                                  (KNum (numZ 0))))]
                Environment.new []).
Proof.
  split; [|split].
  - apply (proj1 (empty_subscript unavailable unavailable unavailable
                    unavailable noStore VUndefined None (Some "READ") []
                    (offsetlookup (variable "a") None) Environment.new []
                    eq_refl eq_refl)).
    discriminate.
  - apply (proj1 (empty_subscript unavailable unavailable unavailable
                    unavailable noStore VUndefined None None []
                    (offsetlookup (variable "a") None) Environment.new []
                    eq_refl eq_refl)).
    discriminate.
  - refine (eq_trans (proj1 (proj2 (empty_subscript unavailable
               (resolveTo (stk_loc (Some (Location.mk (VStr "string") 0 0
                                                      KUndefined))))
               unavailable unavailable (storeOf (VStr "abc"))
               VUndefined None (Some "WRITE")
               [] (offsetlookup (variable "a") None) Environment.new []
               eq_refl eq_refl) eq_refl)) _).
    reflexivity.
Defined.


(** ["abc"["foo"]]. *)
Lemma read_string_at_string_key_witness :
  evaluateOffset unavailable unavailable unavailable unavailable noStore
    (pending (offsetlookup (string_lit "abc") (Some (string_lit "foo")))
             "READ")
  = Ok tt (mkState [stk_val (VStr "a")] Environment.new []).
Proof.
  apply (proj2 (read_string_at_string_key unavailable unavailable unavailable
             unavailable noStore VUndefined None []
             (offsetlookup (string_lit "abc") (Some (string_lit "foo")))
             (string_lit "abc") (string_lit "foo")
             (stk_val (VStr "abc")) "abc" (stk_val (VStr "foo")) "foo"
             [stk_node (Some (string_lit "foo")) (Some "READ")] []
             Environment.new Environment.new Environment.new [] [] []
             eq_refl eq_refl eq_refl eq_refl eq_refl eq_refl eq_refl
             eq_refl eq_refl)).
Defined.


(* ===================================================================== *)
(** ** Concrete runs of the further properties *)
(* ===================================================================== *)

Lemma env_kept_console_grown_closed : step_closed env_kept_console_grown.
Proof.
  constructor.
  - intros s. split; [reflexivity|]. exists []. now rewrite app_nil_r.
  - intros s t u [He1 [d1 Hc1]] [He2 [d2 Hc2]]. split; [congruence|].
    exists (d1 ++ d2)%list. rewrite Hc2, Hc1. now rewrite app_assoc.
  - intros l l' e c ds. split; [reflexivity|]. exists ds. reflexivity.
Qed.

Lemma keeps_unavailable R : step_closed R -> keeps R unavailable.
Proof. intros HR s. apply (closed_refl R HR). Qed.

Lemma keeps_resolveTo R item : step_closed R -> keeps R (resolveTo item).
Proof.
  intros HR. unfold resolveTo.
  apply (keeps_bind R HR); [apply (keeps_pop R HR)|].
  intros _. apply (keeps_push R HR).
Qed.

(** [$a[0]] read when [$a] holds [null]: the environment is the one the
    evaluation started with and the console has only grown. *)
Lemma own_steps_move_items_and_print_witness :
  env_kept_console_grown
    (pending (offsetlookup (variable "a") (Some (number_lit "0"))) "READ")
    (final (evaluateOffset unavailable (resolveTo (stk_val VNull))
              unavailable unavailable noStore
              (pending (offsetlookup (variable "a") (Some (number_lit "0")))
                       "READ"))).
Proof.
  apply (proj1 (proj2 (own_steps_move_items_and_print
           unavailable (resolveTo (stk_val VNull)) unavailable unavailable
           noStore env_kept_console_grown env_kept_console_grown_closed
           (keeps_unavailable _ env_kept_console_grown_closed)
           (keeps_resolveTo _ _ env_kept_console_grown_closed)
           (keeps_unavailable _ env_kept_console_grown_closed)
           (keeps_unavailable _ env_kept_console_grown_closed)))).
Defined.

(** The program [1; foo(); "x";] with [foo()] as a bare call node: the
    first statement runs, the second throws, the third is not reached. *)
Lemma run_in_sequence_witness :
  run unavailable unavailable unavailable unavailable
    (mkAST [expressionstatement (number_lit "1"); call "foo";
            expressionstatement (string_lit "x")])
    (mkState [] Environment.new [])
  = Throw (Error "Eval Error: Unknown expression type: call")
          (mkState [] Environment.new []).
Proof.
  apply (proj2 (run_in_sequence unavailable unavailable unavailable
                  unavailable
                  [expressionstatement (number_lit "1")] (call "foo")
                  [expressionstatement (string_lit "x")]
                  (mkState [] Environment.new [])
                  (mkState [] Environment.new []) eq_refl)).
  reflexivity.
Defined.


(** A string literal and a variable, both marked by-reference. *)
Lemma string_offset_by_reference_witness :
  evaluateOffset unavailable unavailable unavailable unavailable noStore
    (pending (offsetlookup
                (mkNode "string" None None None (LStr "abc") true None)
                (Some (number_lit "0"))) "READ")
  = Throw (Error msg_string_ref) (mkState [] Environment.new [])
  /\ evaluateOffset unavailable
       (resolveTo (stk_loc (Some (Location.mk (VStr "string") 0 0
                                              KUndefined))))
       unavailable unavailable (storeOf (VStr "abc"))
       (pending (offsetlookup
                   (mkNode "variable" None None None LUndefined true
                           (Some "a"))
                   (Some (number_lit "0"))) "WRITE")
     = Throw (Error msg_string_ref) (mkState [] Environment.new []).
Proof.
  split.
  - apply (proj1 (string_offset_by_reference unavailable unavailable
             unavailable unavailable noStore VUndefined None []
             (offsetlookup
                (mkNode "string" None None None (LStr "abc") true None)
                (Some (number_lit "0")))
             (mkNode "string" None None None (LStr "abc") true None)
             (number_lit "0") (stk_val (VStr "abc"))
             (stk_val (VNum (numZ 0)))
             [stk_node (Some (number_lit "0")) (Some "READ")] []
             Environment.new Environment.new Environment.new [] [] []
             eq_refl eq_refl eq_refl eq_refl eq_refl)
             "abc" eq_refl eq_refl).
  - apply (proj2 (string_offset_by_reference unavailable
             (resolveTo (stk_loc (Some (Location.mk (VStr "string") 0 0
                                                    KUndefined))))
             unavailable unavailable (storeOf (VStr "abc"))
             VUndefined None []
             (offsetlookup
                (mkNode "variable" None None None LUndefined true (Some "a"))
                (Some (number_lit "0")))
             (mkNode "variable" None None None LUndefined true (Some "a"))
             (number_lit "0")
             (stk_loc (Some (Location.mk (VStr "string") 0 0 KUndefined)))
             (stk_val (VNum (numZ 0)))
             [stk_node (Some (number_lit "0")) (Some "READ")] []
             Environment.new Environment.new Environment.new [] [] []
             eq_refl eq_refl eq_refl eq_refl eq_refl)
             (Location.mk (VStr "string") 0 0 KUndefined)
             eq_refl eq_refl eq_refl).
Defined.

(** [$a[0]] read when [$a] holds a host object of no known type, and
    located for writing when the location of [$a] has no type. *)
Lemma unsupported_base_witness :
  evaluateOffset unavailable (resolveTo (stk_val VOther)) unavailable
    unavailable noStore
    (pending (offsetlookup (variable "a") (Some (number_lit "0"))) "READ")
  = Throw (Error msg_read_type) (mkState [] Environment.new [])
  /\ evaluateOffset unavailable
       (resolveTo (stk_loc (Some (Location.mk VUndefined 0 0 KUndefined))))
       unavailable unavailable noStore
       (pending (offsetlookup (variable "a") (Some (number_lit "0"))) "WRITE")
     = Throw (Error msg_write_type) (mkState [] Environment.new []).
Proof.
  split.
  - apply (proj1 (unsupported_base unavailable (resolveTo (stk_val VOther))
             unavailable unavailable noStore VUndefined None []
             (offsetlookup (variable "a") (Some (number_lit "0")))
             (variable "a") (number_lit "0") (stk_val VOther)
             (stk_val (VNum (numZ 0)))
             [stk_node (Some (number_lit "0")) (Some "READ")] []
             Environment.new Environment.new Environment.new [] [] []
             eq_refl eq_refl eq_refl eq_refl)
             eq_refl eq_refl).
  - apply (proj2 (unsupported_base unavailable
             (resolveTo (stk_loc (Some (Location.mk VUndefined 0 0
                                                    KUndefined))))
             unavailable unavailable noStore VUndefined None []
             (offsetlookup (variable "a") (Some (number_lit "0")))
             (variable "a") (number_lit "0")
             (stk_loc (Some (Location.mk VUndefined 0 0 KUndefined)))
             (stk_val (VNum (numZ 0)))
             [stk_node (Some (number_lit "0")) (Some "READ")] []
             Environment.new Environment.new Environment.new [] [] []
             eq_refl eq_refl eq_refl eq_refl)
             (Location.mk VUndefined 0 0 KUndefined)
             eq_refl eq_refl);
      discriminate.
Defined.

(** ["abc"[0]] and [1[]] located for writing. *)
Lemma write_offset_on_literal_base_witness :
  evaluateOffset unavailable unavailable unavailable unavailable noStore
    (pending (offsetlookup (string_lit "abc") (Some (number_lit "0")))
             "WRITE")
  = Throw TypeError (mkState [] Environment.new [])
  /\ evaluateOffset unavailable unavailable unavailable unavailable noStore
       (pending (offsetlookup (number_lit "1") None) "WRITE")
     = Throw TypeError (mkState [] Environment.new []).
Proof.
  split.
  - apply (write_offset_on_literal_base unavailable unavailable unavailable
             unavailable noStore VUndefined None []
             (offsetlookup (string_lit "abc") (Some (number_lit "0")))
             (string_lit "abc") Environment.new []
             eq_refl eq_refl (or_intror (or_intror (or_introl eq_refl)))
             (stk_val (VNum (numZ 0))) [] Environment.new [] eq_refl).
  - apply (write_offset_on_literal_base unavailable unavailable unavailable
             unavailable noStore VUndefined None []
             (offsetlookup (number_lit "1") None)
             (number_lit "1") Environment.new []
             eq_refl eq_refl (or_intror (or_introl eq_refl))).
Defined.




(** The programs [$x; 1; "a"; foo();] and [$x; foo();], with [$x] a
    variable statement and [foo()] a bare call node, run alike. *)
Lemma literal_statements_are_skipped_witness :
  run unavailable (resolveTo (stk_val VNull)) unavailable unavailable
    (mkAST ([expressionstatement (variable "x")]
            ++ [expressionstatement (number_lit "1");
                expressionstatement (string_lit "a")]
            ++ [call "foo"]))
    (mkState [] Environment.new [])
  = run unavailable (resolveTo (stk_val VNull)) unavailable unavailable
      (mkAST ([expressionstatement (variable "x")] ++ [call "foo"]))
      (mkState [] Environment.new []).
Proof.
  apply (literal_statements_are_skipped unavailable
           (resolveTo (stk_val VNull)) unavailable unavailable).
  apply Forall_cons; [|apply Forall_cons; [|apply Forall_nil]].
  - split; [reflexivity|]. exists (number_lit "1").
    split; [reflexivity | right; left; reflexivity].
  - split; [reflexivity|]. exists (string_lit "a").
    split; [reflexivity | right; right; left; reflexivity].
Defined.

(** ["abc"[true]] and ["abc"[7]]. *)
Lemma read_string_offset_any_key_witness :
  ((exists i ch,
      String.get i "abc" = Some ch
      /\ evaluateOffset unavailable unavailable unavailable unavailable
           noStore
           (pending (offsetlookup (string_lit "abc")
                       (Some (mkNode "boolean" None None None (LBool true)
                                     false None))) "READ")
         = Ok tt (mkState [stk_val (VStr (String ch EmptyString))]
                    Environment.new []))
   \/ exists at_,
        evaluateOffset unavailable unavailable unavailable unavailable
          noStore
          (pending (offsetlookup (string_lit "abc")
                      (Some (mkNode "boolean" None None None (LBool true)
                                    false None))) "READ")
        = Ok tt (mkState [stk_val VUndefined] Environment.new
                   [uninitialized at_]))
  /\ evaluateOffset unavailable unavailable unavailable unavailable noStore
       (pending (offsetlookup (string_lit "abc")
                   (Some (mkNode "boolean" None None None (LBool true)
                                 false None))) "READ")
     = Ok tt (mkState [stk_val (VStr "b")] Environment.new []).
Proof.
  split; [|reflexivity].
  apply (read_string_offset_any_key unavailable unavailable unavailable
           unavailable noStore VUndefined None []
           (offsetlookup (string_lit "abc")
              (Some (mkNode "boolean" None None None (LBool true) false
                            None)))
           (string_lit "abc")
           (mkNode "boolean" None None None (LBool true) false None)
           (stk_val (VStr "abc")) "abc" (stk_val (VBool true))
           [stk_node (Some (mkNode "boolean" None None None (LBool true)
                                   false None)) (Some "READ")] []
           Environment.new Environment.new Environment.new [] [] []
           eq_refl eq_refl eq_refl eq_refl eq_refl eq_refl eq_refl).
Defined.
